(** * alteredbuilder: the deck editor and the faction chart of the card list page

    A shallow embedding of the click handlers of the card list script
    (the deck editor: [decreaseCardQuantity], [increaseCardQuantity], the
    remove-hero listener and the card-display listener) and of the data
    preparation of the faction pie chart, with the properties of the
    specification proved about them; then of the search filters of the
    same script ([parseFilter], [searchCards], the deck selector) and of
    the colours of the chart, with further properties of the code.

    Conventions of the embedding.
    - JavaScript numbers are the integers, where the arithmetic of the
      script ([+ 1], [- 1], [> 0]) is exact, plus [NaN], which is what
      [Number] gives on a text that is no number.
    - [decklistChanges] is a finite map over its own properties; the [in]
      test of the remove-hero listener also sees the properties that a
      plain object inherits from [Object.prototype].  A property read
      [decklistChanges[k]] is a lookup among the own properties: card
      references are identifiers issued by the server, not names of
      members of [Object.prototype].
    - A handler returns [None] when it raises (the new-row branch on a deck
      column without children dereferences [null]) and when it is given a
      row position that is not in the column, at which no click can occur. *)

From Stdlib Require Import ZArith Lia Decimal DecimalString DecimalZ.
From stdpp Require Import base option list gmap strings sorting.

Local Open Scope Z_scope.

(** ** JavaScript values *)

Module JS.

(** A number: an integer or [NaN]. *)
Inductive number : Type :=
| Int (z : Z)
| NaN.

#[global] Instance number_eq_dec : EqDecision number.
Proof. solve_decision. Defined.

(** [Number(text)]: the empty text is 0, a decimal integer literal is its
    value, anything else is [NaN].  (White space around a literal, a
    leading [+], fractions, exponents and the other radixes are not
    modelled: no quantity cell holds them and no handler writes them.) *)
Definition Number (text : string) : number :=
  match text with
  | EmptyString => Int 0
  | _ => match NilZero.int_of_string text with
         | Some d => Int (Z.of_int d)
         | None => NaN
         end
  end.

(** [String(n)], the conversion applied when a number is assigned to
    [innerText]. *)
Definition ToString (n : number) : string :=
  match n with
  | Int z => NilZero.string_of_int (Z.to_int z)
  | NaN => "NaN"
  end.

(** [ToBoolean] on numbers: 0 and [NaN] are falsy. *)
Definition truthy (n : number) : bool :=
  match n with
  | Int z => negb (z =? 0)
  | NaN => false
  end.

(** [a + b] and [a - b] on numbers, exact: they are the sum and the
    difference of the doubles as long as the operands and the result are
    safe integers. *)
Definition add (a b : number) : number :=
  match a, b with
  | Int x, Int y => Int (x + y)
  | _, _ => NaN
  end.

Definition sub (a b : number) : number :=
  match a, b with
  | Int x, Int y => Int (x - y)
  | _, _ => NaN
  end.

(** [a > b]; a comparison with [NaN] is false. *)
Definition gt (a b : number) : bool :=
  match a, b with
  | Int x, Int y => y <? x
  | _, _ => false
  end.

(** [o[k] || d] for an object whose values are numbers: a missing
    property reads [undefined], which is falsy. *)
Definition or_else (v : option number) (d : number) : number :=
  match v with
  | Some n => if truthy n then n else d
  | None => d
  end.

(** [Number.isSafeInteger]: the integers on which [+ 1] and [- 1] are exact
    in the arithmetic of doubles, as they are in [add] and [sub]. *)
Definition MAX_SAFE_INTEGER : Z := 2 ^ 53 - 1.

Definition isSafeInteger (z : Z) : Prop :=
  - MAX_SAFE_INTEGER ≤ z ≤ MAX_SAFE_INTEGER.

(** The names of the properties of [Object.prototype], which every plain
    object inherits (ECMAScript, with its annex B). *)
Definition Object_prototype : list string :=
  [ "constructor"; "hasOwnProperty"; "isPrototypeOf"; "propertyIsEnumerable";
    "toLocaleString"; "toString"; "valueOf"; "__proto__";
    "__defineGetter__"; "__defineSetter__"; "__lookupGetter__"; "__lookupSetter__" ].

(** [k in o] for a plain object [o] whose own properties are the entries of
    the map: an own property, or one inherited from [Object.prototype]. *)
Definition HasProperty (o : gmap string number) (k : string) : bool :=
  bool_decide (is_Some (o !! k)) || bool_decide (k ∈ Object_prototype).

End JS.

Import JS.

(** ** The page *)

(** The two functions the script registers on the buttons of a row. *)
Inductive listener : Type :=
| on_decreaseCardQuantity
| on_increaseCardQuantity.

#[global] Instance listener_eq_dec : EqDecision listener.
Proof. solve_decision. Defined.

(** Modelled from the spec: the markup of a row of the deck column, which
    the server template renders and the source only navigates.  A row
    container holds, three levels down, the remove button, the quantity
    cell as its next sibling and the add button as the sibling after that;
    it also holds the name cell.  [row_markup] is the rest of the subtree,
    which no handler reads or writes and [cloneNode(true)] copies. *)
Record Row : Type := mkRow {
  row_id : string;                     (* [id] of the container *)
  card_quantity : string;              (* [innerText] of the [card-quantity] cell *)
  card_name : string;                  (* [innerText] of the [card-name] cell *)
  row_hidden : bool;                   (* [hidden] of the container *)
  remove_card_btn : list listener;     (* click listeners of the remove button *)
  add_card_btn : list listener;        (* click listeners of the add button *)
  row_markup : string
}.

#[global] Instance Row_eq_dec : EqDecision Row.
Proof. solve_decision. Defined.

(** The part of the document the deck editor touches, and the module-level
    variable [decklistChanges]. *)
Record State : Type := mkState {
  edit_deck_column : list Row;         (* element children of [edit-deck-column] *)
  hero_name : string;                  (* [value] of [hero-name] *)
  hero_cardReference : string;         (* [dataset.cardReference] of [hero-name] *)
  remove_hero_disabled : bool;         (* [disabled] of [remove-hero] *)
  decklistChanges : gmap string number
}.

Definition set_card_quantity (text : string) (r : Row) : Row :=
  mkRow (row_id r) text (card_name r) (row_hidden r)
        (remove_card_btn r) (add_card_btn r) (row_markup r).

Definition set_card_name (text : string) (r : Row) : Row :=
  mkRow (row_id r) (card_quantity r) text (row_hidden r)
        (remove_card_btn r) (add_card_btn r) (row_markup r).

Definition set_row_id (id : string) (r : Row) : Row :=
  mkRow id (card_quantity r) (card_name r) (row_hidden r)
        (remove_card_btn r) (add_card_btn r) (row_markup r).

Definition set_row_hidden (h : bool) (r : Row) : Row :=
  mkRow (row_id r) (card_quantity r) (card_name r) h
        (remove_card_btn r) (add_card_btn r) (row_markup r).

(** [addEventListener]: a listener already registered is not added again. *)
Definition addEventListener (f : listener) (fs : list listener) : list listener :=
  if decide (f ∈ fs) then fs else fs ++ [f].

Definition listen_remove_card_btn (f : listener) (r : Row) : Row :=
  mkRow (row_id r) (card_quantity r) (card_name r) (row_hidden r)
        (addEventListener f (remove_card_btn r)) (add_card_btn r) (row_markup r).

Definition listen_add_card_btn (f : listener) (r : Row) : Row :=
  mkRow (row_id r) (card_quantity r) (card_name r) (row_hidden r)
        (remove_card_btn r) (addEventListener f (add_card_btn r)) (row_markup r).

(** [cloneNode(true)]: the subtree with its attributes and texts; listeners
    registered with [addEventListener] are not copied. *)
Definition cloneNode (r : Row) : Row :=
  mkRow (row_id r) (card_quantity r) (card_name r) (row_hidden r)
        [] [] (row_markup r).

Definition set_column (col : list Row) (s : State) : State :=
  mkState col (hero_name s) (hero_cardReference s)
          (remove_hero_disabled s) (decklistChanges s).

Definition set_changes (m : gmap string number) (s : State) : State :=
  mkState (edit_deck_column s) (hero_name s) (hero_cardReference s)
          (remove_hero_disabled s) m.

Definition set_hero (name reference : string) (disabled : bool) (s : State) : State :=
  mkState (edit_deck_column s) name reference disabled (decklistChanges s).

(** [document.getElementById(id)] for the id of a row: the first row of the
    column with that id, with its position. *)
Definition getElementById (id : string) (s : State) : option (nat * Row) :=
  list_find (λ r, row_id r = id) (edit_deck_column s).

(** [editDeckColumn.lastElementChild]. *)
Definition lastElementChild (s : State) : option Row :=
  last (edit_deck_column s).

(** ** The handlers

    A click on a button of a row is identified by the position [target] of
    the row in the deck column. *)

(** [decreaseCardQuantity(event)]: the quantity cell is the next sibling of
    the button, the row is its third ancestor. *)
Definition decreaseCardQuantity (target : nat) (s : State) : option State :=
  r ← edit_deck_column s !! target;
  let quantity := sub (Number (card_quantity r)) (Int 1) in
  if gt quantity (Int 0) then
    Some (set_column
            (<[target := set_card_quantity (ToString quantity) r]> (edit_deck_column s)) s)
  else
    Some (set_column (delete target (edit_deck_column s)) s).

(** [increaseCardQuantity(event)]: the quantity cell is the previous sibling
    of the button. *)
Definition increaseCardQuantity (target : nat) (s : State) : option State :=
  r ← edit_deck_column s !! target;
  let quantity := add (Number (card_quantity r)) (Int 1) in
  Some (set_column
          (<[target := set_card_quantity (ToString quantity) r]> (edit_deck_column s)) s).

(** The click listener of [remove-hero]: the hero name field is the
    previous sibling of the button.  [delete] removes an own property and
    leaves an inherited one where it is. *)
Definition removeHero (s : State) : State :=
  let heroReference := hero_cardReference s in
  let s := set_hero "" "" true s in
  if HasProperty (decklistChanges s) heroReference then
    set_changes (delete heroReference (decklistChanges s)) s
  else
    set_changes (<[heroReference := Int 0]> (decklistChanges s)) s.

(** The row the new-row branch of the card-display listener builds from the
    node it cloned, assignment by assignment. *)
Definition newCardElement (lastChild : Row) (cardReference cardName : string) : Row :=
  let e := cloneNode lastChild in
  let e := set_row_id ("row-" +:+ cardReference) e in
  let e := set_card_quantity (ToString (Int 1)) e in
  let e := set_card_name cardName e in
  let e := listen_remove_card_btn on_decreaseCardQuantity e in
  let e := listen_add_card_btn on_increaseCardQuantity e in
  set_row_hidden false e.

(** The click listener of a [card-display] tile, whose data attributes are
    [cardReference], [cardName] and [cardType].  The displayed quantity of
    an existing row is read back from [decklistChanges] after the
    assignment, as the script does. *)
Definition cardDisplay (cardReference cardName cardType : string) (s : State)
  : option State :=
  if decide (cardType = "hero") then
    if decide (hero_name s = "") then
      Some (set_changes (<[cardReference := Int 1]> (decklistChanges s))
              (set_hero cardName cardReference false s))
    else Some s
  else
    match getElementById ("row-" +:+ cardReference) s with
    | Some (i, cardElement) =>
        let quantity :=
          or_else (decklistChanges s !! cardReference)
                  (Number (card_quantity cardElement)) in
        let changes := <[cardReference := add quantity (Int 1)]> (decklistChanges s) in
        let text := from_option ToString "undefined" (changes !! cardReference) in
        Some (set_changes changes
                (set_column
                   (<[i := set_card_quantity text cardElement]> (edit_deck_column s)) s))
    | None =>
        lastChild ← lastElementChild s;
        Some (set_changes (<[cardReference := Int 1]> (decklistChanges s))
                (set_column
                   (edit_deck_column s ++ [newCardElement lastChild cardReference cardName]) s))
    end.

(** ** Page load and the clicks of the user *)

(** The two loops run at page load: every row present then, the hidden
    template included, gets both listeners. *)
Definition wire (r : Row) : Row :=
  listen_add_card_btn on_increaseCardQuantity
    (listen_remove_card_btn on_decreaseCardQuantity r).

(** The state after the script has run on the document the server rendered:
    [decklistChanges] is the empty object. *)
Definition load (column : list Row) (heroName heroReference : string)
    (removeDisabled : bool) : State :=
  mkState (wire <$> column) heroName heroReference removeDisabled ∅.

Definition call (f : listener) (target : nat) (s : State) : option State :=
  match f with
  | on_decreaseCardQuantity => decreaseCardQuantity target s
  | on_increaseCardQuantity => increaseCardQuantity target s
  end.

(** The listeners of a button run in the order they were registered.  Once
    one of them has removed the row from the column, the others find a
    detached node and leave the page as it is. *)
Fixpoint dispatch (fs : list listener) (target : nat) (s : State) : option State :=
  match fs with
  | [] => Some s
  | f :: fs' =>
      s' ← call f target s;
      if (length (edit_deck_column s') <? length (edit_deck_column s))%nat
      then Some s'
      else dispatch fs' target s'
  end.

Inductive event : Type :=
| click_card_display (cardReference cardName cardType : string)
| click_remove_card_btn (row : nat)
| click_add_card_btn (row : nat)
| click_remove_hero.

(** One click.  A hidden row is not rendered and a disabled button fires no
    click event: such a click cannot happen, and neither can a click on a
    row that is not there. *)
Definition click (e : event) (s : State) : option State :=
  match e with
  | click_card_display cardReference cardName cardType =>
      cardDisplay cardReference cardName cardType s
  | click_remove_card_btn i =>
      r ← edit_deck_column s !! i;
      if row_hidden r then None else dispatch (remove_card_btn r) i s
  | click_add_card_btn i =>
      r ← edit_deck_column s !! i;
      if row_hidden r then None else dispatch (add_card_btn r) i s
  | click_remove_hero =>
      if remove_hero_disabled s then None else Some (removeHero s)
  end.

Fixpoint clicks (es : list event) (s : State) : option State :=
  match es with
  | [] => Some s
  | e :: es' => s' ← click e s; clicks es' s'
  end.

(** ** What the page shows and holds *)

(** The text of the quantity cell of the row of a card reference. *)
Definition displayed (cardReference : string) (s : State) : option string :=
  (card_quantity ∘ snd) <$> getElementById ("row-" +:+ cardReference) s.

(** The hero slot, as the card-display listener tests it: empty when the
    hero name field is the empty string. *)
Inductive hero_slot : Type :=
| EMPTY
| OCCUPIED (reference : string).

Definition slot (s : State) : hero_slot :=
  if decide (hero_name s = "") then EMPTY else OCCUPIED (hero_cardReference s).

(** ** The faction chart *)

(** [Array.prototype.sort(comparefn)] is stable: for a consistent comparator
    its result is the one obtained by inserting the elements, from the
    last to the first, before the first element they do not come after. *)
Section Sort.
Context {A : Type} (comparefn : A → A → Z).

Fixpoint sort_insert (x : A) (l : list A) : list A :=
  match l with
  | [] => [x]
  | y :: l' => if comparefn x y <=? 0 then x :: l else y :: sort_insert x l'
  end.

Definition sort (l : list A) : list A := foldr sort_insert [] l.
End Sort.

(** [Object.entries(deckStats)] is the list of the (faction, count) pairs
    of the parsed object; the chart script sorts it and projects it. *)
Definition deckStats (entries : list (string * Z)) : list (string * Z) :=
  sort (λ a b, b.2 - a.2) entries.

Definition labels (entries : list (string * Z)) : list string :=
  (λ dataPoint, dataPoint.1) <$> deckStats entries.

Definition data (entries : list (string * Z)) : list Z :=
  (λ dataPoint, dataPoint.2) <$> deckStats entries.

(** A visible row shows a positive quantity; the hidden template may hold
    an empty cell or a 0. *)
Definition shows_quantity (r : Row) : bool :=
  match Number (card_quantity r) with
  | Int q => if row_hidden r then 0 <=? q else 0 <? q
  | NaN => false
  end.

(** The state after the m-th of a run of select clicks on a reference that
    had no row, [lastChild] being the node the first click cloned. *)
Definition selected (m : Z) (lastChild : Row) (cardReference cardName : string)
    (s : State) : State :=
  set_changes (<[cardReference := Int m]> (decklistChanges s))
    (set_column
       (edit_deck_column s
          ++ [set_card_quantity (ToString (Int m))
                (newCardElement lastChild cardReference cardName)]) s).

(** The deck column still holds a hidden row with the markup of the
    template, and every row after it has that markup too. *)
Definition template_kept (template : Row) (column : list Row) : Prop :=
  ∃ k h, column !! k = Some h
         ∧ row_hidden h = true
         ∧ row_markup h = row_markup template
         ∧ ∀ j r, (k < j)%nat → column !! j = Some r →
                  row_markup r = row_markup template.

(** Every row shows a quantity, and every entry of the change-set is a
    count. *)
Definition counts (s : State) : Prop :=
  Forall (λ r, shows_quantity r = true) (edit_deck_column s)
  ∧ map_Forall (λ _ v, ∃ q, v = Int q ∧ 0 ≤ q) (decklistChanges s).

(** C2 in the words of the specification: with a row for the reference in
    the page, a select click increments the displayed quantity by 1 and
    sets the change-set entry to the new quantity, whatever the entry
    was. *)
Definition select_increments_displayed
    (cardReference cardName cardType : string) (s : State) : Prop :=
  ∀ i r, getElementById ("row-" +:+ cardReference) s = Some (i, r) →
    ∃ s', cardDisplay cardReference cardName cardType s = Some s'
          ∧ displayed cardReference s'
            = Some (ToString (add (Number (card_quantity r)) (Int 1)))
          ∧ decklistChanges s' !! cardReference
            = Some (add (Number (card_quantity r)) (Int 1)).





(** ** A page to run the handlers on

    A deck of two cards without a hero, as the server renders it: the
    template row is hidden and comes last. *)
Definition example_template : Row :=
  {| row_id := "row-template";
     card_quantity := "0";
     card_name := "";
     row_hidden := true;
     remove_card_btn := [];
     add_card_btn := [];
     row_markup := "template" |}.

Definition example_mechanic : Row :=
  {| row_id := "row-ALT_CORE_B_AX_08_C";
     card_quantity := "3";
     card_name := "Foundry Mechanic";
     row_hidden := false;
     remove_card_btn := [];
     add_card_btn := [];
     row_markup := "axiom" |}.

Definition example_parvati : Row :=
  {| row_id := "row-ALT_CORE_B_MU_12_C";
     card_quantity := "1";
     card_name := "Parvati";
     row_hidden := false;
     remove_card_btn := [];
     add_card_btn := [];
     row_markup := "muna" |}.

Definition example_column : list Row :=
  [ example_mechanic; example_parvati; example_template ].

Definition example_page : State := load example_column "" "" true.

(** The same deck with its hero and a pending change for it. *)
Definition example_hero_page : State :=
  set_changes {[ "ALT_CORE_B_AX_01_C" := Int 1 ]}
    (load example_column "Sierra & Oddball" "ALT_CORE_B_AX_01_C" false).




(** A new card selected once, then raised twice with its add button. *)
Definition example_raised : option State :=
  clicks [ click_card_display "ALT_CORE_B_BR_10_C" "Kojo" "character";
           click_add_card_btn 3;
           click_add_card_btn 3 ] example_page.

Definition example_factions : list (string * Z) :=
  [ ("axiom", 12); ("bravos", 3); ("lyra", 12); ("muna", 20) ].

(** ** Predicates on runs of clicks *)

(** A select click on a card that is no hero. *)
Definition normal_select (e : event) : Prop :=
  match e with
  | click_card_display _ _ cardType => cardType ≠ "hero"
  | _ => False
  end.

(** Every entry of the change-set is the quantity its row displays. *)
Definition agree (s : State) : Prop :=
  ∀ cardReference v,
    decklistChanges s !! cardReference = Some v →
    displayed cardReference s = Some (ToString v).

(** Every row has the decrease listener, and no other, on its remove
    button, and the increase listener, and no other, on its add button. *)
Definition wired (s : State) : Prop :=
  Forall (λ r, remove_card_btn r = [on_decreaseCardQuantity]
               ∧ add_card_btn r = [on_increaseCardQuantity])
         (edit_deck_column s).

(** ** The colours of the chart *)



(** ** The search filters *)

(** A checkbox of the filter form. *)
Record Checkbox : Type := mkCheckbox {
  checked : bool;
  value : string
}.

(** [new URLSearchParams()]: the list of the name-value pairs, in the order
    they were appended. *)
Module URLSearchParams.

Definition append (name v : string) (params : list (string * string))
  : list (string * string) :=
  params ++ [(name, v)].

(** [get(name)]: the value of the first pair with that name, or [null]. *)
Definition get (name : string) (params : list (string * string)) : option string :=
  (λ found, found.2.2) <$> list_find (λ pair, pair.1 = name) params.

(** [delete(name)]: every pair with that name goes. *)
Definition delete (name : string) (params : list (string * string))
  : list (string * string) :=
  filter (λ pair, pair.1 ≠ name) params.

End URLSearchParams.

(** What the search reads: the checkboxes of the document by id, the query
    input, the ordering dropdown, and the location, whose query string is
    kept as the pairs [new URLSearchParams(window.location.search)] holds. *)
Record SearchPage : Type := mkSearchPage {
  checkboxes : gmap string Checkbox;
  querySearch : string;                        (* [value] of [querySearch] *)
  filterOrdering_selectedIndex : Z;
  filterOrdering_value : string;
  location_pathname : string;
  location_search : list (string * string)
}.

(** The loop of [parseFilter], from the value [filter] has when it starts
    on [labels]: a label without its checkbox raises. *)
Fixpoint parseFilter_loop (doc : gmap string Checkbox) (filter : list string)
    (labels : list string) : option (list string) :=
  match labels with
  | [] => Some filter
  | label :: labels' =>
      labelElement ← doc !! ("filter" +:+ label);
      parseFilter_loop doc
        (if checked labelElement then filter ++ [value labelElement] else filter)
        labels'
  end.

(** [parseFilter(labels)]. *)
Definition parseFilter (labels : list string) (doc : gmap string Checkbox)
  : option (list string) :=
  parseFilter_loop doc [] labels.

(** [searchCards(e)]: the URL it opens, [pathname + "?" + params.toString()],
    as the path and the pairs of [params]. *)
Definition searchCards (p : SearchPage) : option (string * list (string * string)) :=
  let params := [] in
  factions ← parseFilter ["Axiom"; "Bravos"; "Lyra"; "Muna"; "Ordis"; "Yzmir"]
               (checkboxes p);
  let params :=
    if (0 <? length factions)%nat
    then URLSearchParams.append "faction" (String.concat "," factions) params
    else params in
  rarities ← parseFilter ["Common"; "Rare"; "Unique"] (checkboxes p);
  let params :=
    if (0 <? length rarities)%nat
    then URLSearchParams.append "rarity" (String.concat "," rarities) params
    else params in
  types ← parseFilter ["Character"; "Hero"; "Permanent"; "Spell"] (checkboxes p);
  let params :=
    if (0 <? length types)%nat
    then URLSearchParams.append "type" (String.concat "," types) params
    else params in
  let params :=
    if decide (querySearch p ≠ "")
    then URLSearchParams.append "query" (querySearch p) params
    else params in
  let params :=
    if 1 <? filterOrdering_selectedIndex p
    then URLSearchParams.append "order" (filterOrdering_value p) params
    else params in
  let deckId := URLSearchParams.get "deck" (location_search p) in
  let params :=
    match deckId with
    | Some deck =>
        if decide (deck ≠ "") then URLSearchParams.append "deck" deck params
        else params
    | None => params
    end in
  Some (location_pathname p, params).

(** The change listener of [deckSelector], [selected] being the value of
    the dropdown: the URL it opens. *)
Definition deckSelector (selected : string) (p : SearchPage)
  : string * list (string * string) :=
  let params := location_search p in
  let params := URLSearchParams.delete "deck" params in
  let params := URLSearchParams.append "deck" selected params in
  (location_pathname p, params).

(** The filter form of the card list, with the Axiom and the Rare boxes
    checked, on the page of deck 42. *)
Definition example_checkboxes : gmap string Checkbox :=
  list_to_map
    [ ("filterAxiom", mkCheckbox true "AX"); ("filterBravos", mkCheckbox false "BR");
      ("filterLyra", mkCheckbox false "LY"); ("filterMuna", mkCheckbox false "MU");
      ("filterOrdis", mkCheckbox false "OR"); ("filterYzmir", mkCheckbox false "YZ");
      ("filterCommon", mkCheckbox false "C"); ("filterRare", mkCheckbox true "R");
      ("filterUnique", mkCheckbox false "U");
      ("filterCharacter", mkCheckbox false "character");
      ("filterHero", mkCheckbox false "hero");
      ("filterPermanent", mkCheckbox false "permanent");
      ("filterSpell", mkCheckbox false "spell") ].

Definition example_search : SearchPage :=
  {| checkboxes := example_checkboxes;
     querySearch := "robot";
     filterOrdering_selectedIndex := 2;
     filterOrdering_value := "-name";
     location_pathname := "/cards/";
     location_search := [("faction", "BR"); ("deck", "42")] |}.

(** The same form with nothing selected, outside of any deck. *)
Definition example_blank_search : SearchPage :=
  {| checkboxes := mkCheckbox false <$> (value <$> example_checkboxes);
     querySearch := "";
     filterOrdering_selectedIndex := 0;
     filterOrdering_value := "";
     location_pathname := "/cards/";
     location_search := [("faction", "BR")] |}.

(** * Properties *)

(** ** Numbers and texts *)

Lemma Number_ToString (n : number) : Number (ToString n) = n.
Proof.
  destruct n as [z|]; [|reflexivity].
  unfold Number, ToString.
  assert (Hd : NilZero.int_of_string (NilZero.string_of_int (Z.to_int z))
               = Some (Z.to_int z)).
  { apply NilZero.isi; destruct z as [|p|p]; simpl; try discriminate;
      intros [= Hp]; exact (DecimalPos.Unsigned.to_uint_nonnil p Hp). }
  destruct (NilZero.string_of_int (Z.to_int z)) eqn:E; [discriminate|].
  by rewrite Hd, DecimalZ.of_to.
Qed.

Lemma ToString_inj (m n : number) : ToString m = ToString n → m = n.
Proof. intros H. by rewrite <- (Number_ToString m), H, Number_ToString. Qed.

(** ** Lookups in the column *)

Lemma getElementById_Some id s i r :
  getElementById id s = Some (i, r) →
  edit_deck_column s !! i = Some r ∧ row_id r = id.
Proof.
  unfold getElementById. intros Hfind.
  apply list_find_Some in Hfind as (Hi & Hid & _). by split.
Qed.

Lemma getElementById_None id s :
  getElementById id s = None ↔ Forall (λ r, row_id r ≠ id) (edit_deck_column s).
Proof. unfold getElementById. apply list_find_None. Qed.

Lemma list_find_insert_same {A} (P : A → Prop) `{∀ x, Decision (P x)} l i x y :
  list_find P l = Some (i, x) → P y → list_find P (<[i := y]> l) = Some (i, y).
Proof.
  intros Hf Hy. apply list_find_Some in Hf as (Hi & Hx & Hlt).
  apply list_find_Some. split_and!.
  - apply list_lookup_insert_eq. by eapply lookup_lt_Some.
  - done.
  - intros j z Hj Hji. rewrite list_lookup_insert_ne in Hj by lia. eauto.
Qed.

Lemma list_find_app_new {A} (P : A → Prop) `{∀ x, Decision (P x)} l x :
  list_find P l = None → P x → list_find P (l ++ [x]) = Some (length l, x).
Proof.
  intros Hn Hx. rewrite list_find_app_r by done.
  simpl. by rewrite decide_True.
Qed.

(** ** Removing the hero *)

Lemma removeHero_fields (s : State) :
  removeHero s = set_hero "" "" true (set_changes (decklistChanges (removeHero s)) s).
Proof. unfold removeHero. by case_match. Qed.

Lemma slot_removeHero (s : State) : slot (removeHero s) = EMPTY.
Proof. by rewrite removeHero_fields. Qed.

(** C6: after the remove-hero listener has run, on an occupied slot as on
    any other, the hero name field is the empty string, its stored card
    reference is the empty string and the remove control is disabled. *)
Theorem removeHero_clears_slot (s : State) :
  hero_name (removeHero s) = ""
  ∧ hero_cardReference (removeHero s) = ""
  ∧ remove_hero_disabled (removeHero s) = true
  ∧ slot (removeHero s) = EMPTY.
Proof. by rewrite removeHero_fields. Qed.



(** ** The quantity buttons *)

Lemma call_changes_only_row (f : listener) (target : nat) (s s' : State) :
  call f target s = Some s' →
  ∃ r, edit_deck_column s !! target = Some r
       ∧ s' = set_column (edit_deck_column s') s
       ∧ (edit_deck_column s' = delete target (edit_deck_column s)
          ∨ ∃ text, edit_deck_column s'
                    = <[target := set_card_quantity text r]> (edit_deck_column s)).
Proof.
  destruct f; unfold call, decreaseCardQuantity, increaseCardQuantity;
    destruct (edit_deck_column s !! target) as [r|] eqn:Hr; simpl; try discriminate;
    try case_match; intros [= <-]; exists r; simpl; eauto.
Qed.

(** C9: neither quantity handler touches the change-set.  An increase or a
    decrease click rewrites the quantity text of its row, or removes the
    row; every entry of [decklistChanges], and the hero slot, are after the
    click what they were before. *)
Theorem quantity_click_frame (target : nat) (s s' : State) :
  increaseCardQuantity target s = Some s' ∨ decreaseCardQuantity target s = Some s' →
  decklistChanges s' = decklistChanges s
  ∧ (hero_name s', hero_cardReference s', remove_hero_disabled s')
    = (hero_name s, hero_cardReference s, remove_hero_disabled s)
  ∧ ∃ r, edit_deck_column s !! target = Some r
         ∧ (edit_deck_column s' = delete target (edit_deck_column s)
            ∨ ∃ text, edit_deck_column s'
                      = <[target := set_card_quantity text r]> (edit_deck_column s)).
Proof.
  intros Hcall.
  assert (∃ f, call f target s = Some s') as [f Hf].
  { destruct Hcall; [by exists on_increaseCardQuantity | by exists on_decreaseCardQuantity]. }
  apply call_changes_only_row in Hf as (r & Hr & -> & Hcol).
  simpl. eauto.
Qed.

Lemma elem_of_delete_lookup {A} (l : list A) (i : nat) (x : A) :
  x ∈ delete i l → ∃ j, j ≠ i ∧ l !! j = Some x.
Proof.
  intros Hx. apply list_elem_of_lookup in Hx as [j Hj].
  destruct (decide (j < i)%nat).
  - rewrite list_lookup_delete_lt in Hj by done. exists j. split; [lia|done].
  - rewrite list_lookup_delete_ge in Hj by lia. exists (S j). split; [lia|done].
Qed.

Lemma elem_of_insert_inv {A} (l : list A) (i : nat) (x y : A) :
  y ∈ <[i := x]> l → y = x ∨ y ∈ l.
Proof.
  intros Hy. apply list_elem_of_lookup in Hy as [j Hj].
  destruct (decide (i = j)) as [->|Hne].
  - destruct (decide (j < length l)%nat).
    + rewrite list_lookup_insert_eq in Hj by done. left. congruence.
    + rewrite list_insert_ge in Hj by lia. right. by eapply list_elem_of_lookup_2.
  - rewrite list_lookup_insert_ne in Hj by done. right. by eapply list_elem_of_lookup_2.
Qed.

(** C5: a decrease click on a row that shows the quantity q, a safe
    integer.  When q-1 is positive the cell of the row reads q-1 after the
    click, nothing else of the row and no other row has changed.  When q-1
    is 0 (or less) the whole row is removed from the deck column, the rows
    after it moving up; with row ids unique its id is no longer in the
    column.  So the handler never leaves a negative quantity or a 0 on
    display: after the click every row of the column shows a positive
    quantity or is one of the other rows, which the click did not touch. *)
Theorem decreaseCardQuantity_click (target : nat) (r : Row) (q : Z) (s : State) :
  edit_deck_column s !! target = Some r →
  Number (card_quantity r) = Int q →
  isSafeInteger q →
  (0 < q - 1 →
     ∃ s' r',
       decreaseCardQuantity target s = Some s'
       ∧ edit_deck_column s' !! target = Some r'
       ∧ card_quantity r' = ToString (Int (q - 1))
       ∧ Number (card_quantity r') = Int (q - 1)
       ∧ (row_id r', card_name r', row_hidden r',
          remove_card_btn r', add_card_btn r', row_markup r')
         = (row_id r, card_name r, row_hidden r,
            remove_card_btn r, add_card_btn r, row_markup r)
       ∧ length (edit_deck_column s') = length (edit_deck_column s)
       ∧ (∀ j, j ≠ target → edit_deck_column s' !! j = edit_deck_column s !! j)
       ∧ s' = set_column (edit_deck_column s') s)
  ∧ (q - 1 ≤ 0 →
     ∃ s',
       decreaseCardQuantity target s = Some s'
       ∧ edit_deck_column s' = delete target (edit_deck_column s)
       ∧ length (edit_deck_column s') = pred (length (edit_deck_column s))
       ∧ (∀ j, (j < target)%nat →
            edit_deck_column s' !! j = edit_deck_column s !! j)
       ∧ (∀ j, (target ≤ j)%nat →
            edit_deck_column s' !! j = edit_deck_column s !! S j)
       ∧ s' = set_column (edit_deck_column s') s
       ∧ (NoDup (row_id <$> edit_deck_column s) →
          getElementById (row_id r) s' = None))
  ∧ (∀ s' j r',
       decreaseCardQuantity target s = Some s' →
       edit_deck_column s' !! j = Some r' →
       (∃ q', Number (card_quantity r') = Int q' ∧ 0 < q')
       ∨ (∃ i, i ≠ target ∧ edit_deck_column s !! i = Some r')).
Proof.
  intros Hr Hq _.
  assert (Hlt : (target < length (edit_deck_column s))%nat)
    by by eapply lookup_lt_Some.
  assert (Hdec :
    decreaseCardQuantity target s
    = Some (set_column
              (if decide (0 < q - 1)
               then <[target := set_card_quantity (ToString (Int (q - 1))) r]>
                      (edit_deck_column s)
               else delete target (edit_deck_column s)) s)).
  { unfold decreaseCardQuantity. rewrite Hr. simpl. rewrite Hq. simpl.
    case_decide.
    - by rewrite (proj2 (Z.ltb_lt 0 (q - 1))).
    - by rewrite (proj2 (Z.ltb_ge 0 (q - 1))) by lia. }
  split_and!.
  - intros Hpos. rewrite Hdec, decide_True by done.
    eexists _, (set_card_quantity (ToString (Int (q - 1))) r). split_and!.
    + done.
    + simpl. by apply list_lookup_insert_eq.
    + done.
    + exact (Number_ToString (Int (q - 1))).
    + done.
    + simpl. apply length_insert.
    + intros j Hj. simpl. by apply list_lookup_insert_ne.
    + done.
  - intros Hle. rewrite Hdec, decide_False by lia. eexists. split_and!.
    + done.
    + done.
    + simpl. rewrite length_delete; [lia|]. by eexists.
    + intros j Hj. simpl. by apply list_lookup_delete_lt.
    + intros j Hj. simpl. by apply list_lookup_delete_ge.
    + done.
    + intros Hnd. apply getElementById_None. simpl.
      apply Forall_forall. intros r' Hr' Hid.
      apply elem_of_delete_lookup in Hr' as (j & Hj & Hrj).
      apply Hj. eapply NoDup_lookup; [exact Hnd| |].
      * by rewrite list_lookup_fmap, Hrj.
      * rewrite list_lookup_fmap, Hr. simpl. by rewrite Hid.
  - intros s' j r'. rewrite Hdec. intros [= <-]. simpl. case_decide.
    + destruct (decide (j = target)) as [->|Hj].
      * rewrite list_lookup_insert_eq by done. intros [= <-]. left.
        exists (q - 1). split; [|done]. exact (Number_ToString (Int (q - 1))).
      * rewrite list_lookup_insert_ne by done. intros Hr'. right. by exists j.
    + destruct (decide (j < target)%nat).
      * rewrite list_lookup_delete_lt by done. intros Hr'. right.
        exists j. split; [lia|done].
      * rewrite list_lookup_delete_ge by lia. intros Hr'. right.
        exists (S j). split; [lia|done].
Qed.

(** ** Selecting a card *)

Lemma cardDisplay_existing cardReference cardName cardType s i r :
  cardType ≠ "hero" →
  getElementById ("row-" +:+ cardReference) s = Some (i, r) →
  let quantity :=
    or_else (decklistChanges s !! cardReference) (Number (card_quantity r)) in
  cardDisplay cardReference cardName cardType s
  = Some (set_changes (<[cardReference := add quantity (Int 1)]> (decklistChanges s))
            (set_column
               (<[i := set_card_quantity (ToString (add quantity (Int 1))) r]>
                  (edit_deck_column s)) s)).
Proof.
  intros Hty Hrow. unfold cardDisplay.
  rewrite decide_False by done. rewrite Hrow. simpl.
  by rewrite lookup_insert_eq.
Qed.

Lemma cardDisplay_new cardReference cardName cardType s lastChild :
  cardType ≠ "hero" →
  getElementById ("row-" +:+ cardReference) s = None →
  lastElementChild s = Some lastChild →
  cardDisplay cardReference cardName cardType s
  = Some (set_changes (<[cardReference := Int 1]> (decklistChanges s))
            (set_column
               (edit_deck_column s ++ [newCardElement lastChild cardReference cardName])
               s)).
Proof.
  intros Hty Hrow Hlast. unfold cardDisplay.
  rewrite decide_False by done. by rewrite Hrow, Hlast.
Qed.

Lemma displayed_insert_row cardReference s i r text m :
  getElementById ("row-" +:+ cardReference) s = Some (i, r) →
  displayed cardReference
    (set_changes m
       (set_column (<[i := set_card_quantity text r]> (edit_deck_column s)) s))
  = Some text.
Proof.
  intros Hrow. unfold displayed, getElementById. simpl.
  erewrite list_find_insert_same; [done|exact Hrow|].
  simpl. by apply getElementById_Some in Hrow as [_ ?].
Qed.

(** C2, as the code has it: with a row for R in the page, a select click on
    R sets the displayed quantity of the row and the change-set entry of R
    to the same number q+1, where q is the change-set entry of R when that
    is a number other than 0 and the displayed quantity otherwise.  So the
    displayed quantity goes up by exactly 1 when the change-set has no
    entry for R, or the entry 0, or an entry equal to the displayed
    quantity. *)
Theorem cardDisplay_existing_row cardReference cardName cardType s i r :
  cardType ≠ "hero" →
  getElementById ("row-" +:+ cardReference) s = Some (i, r) →
  let shown := Number (card_quantity r) in
  let quantity := or_else (decklistChanges s !! cardReference) shown in
  ∃ s', cardDisplay cardReference cardName cardType s = Some s'
        ∧ displayed cardReference s' = Some (ToString (add quantity (Int 1)))
        ∧ decklistChanges s' !! cardReference = Some (add quantity (Int 1))
        ∧ (decklistChanges s !! cardReference = None
           ∨ decklistChanges s !! cardReference = Some (Int 0)
           ∨ decklistChanges s !! cardReference = Some shown →
           displayed cardReference s' = Some (ToString (add shown (Int 1)))).
Proof.
  intros Hty Hrow shown quantity. eexists. split_and!.
  - by apply cardDisplay_existing.
  - by apply displayed_insert_row.
  - simpl. apply lookup_insert_eq.
  - intros Hentry. rewrite (displayed_insert_row _ _ _ _ _ _ Hrow).
    do 3 f_equal. subst quantity.
    destruct Hentry as [-> | [-> | ->]]; [done..|].
    unfold or_else. by destruct (truthy shown).
Qed.

Lemma getElementById_selected m lastChild cardReference cardName s :
  getElementById ("row-" +:+ cardReference) s = None →
  getElementById ("row-" +:+ cardReference)
    (selected m lastChild cardReference cardName s)
  = Some (length (edit_deck_column s),
          set_card_quantity (ToString (Int m))
            (newCardElement lastChild cardReference cardName)).
Proof.
  intros Hrow. unfold getElementById, selected. simpl.
  by apply list_find_app_new.
Qed.

Lemma cardDisplay_selected m lastChild cardReference cardName cardType s :
  cardType ≠ "hero" →
  getElementById ("row-" +:+ cardReference) s = None →
  0 < m →
  cardDisplay cardReference cardName cardType
    (selected m lastChild cardReference cardName s)
  = Some (selected (m + 1) lastChild cardReference cardName s).
Proof.
  intros Hty Hrow Hm.
  erewrite cardDisplay_existing;
    [|done|by apply getElementById_selected].
  unfold selected. simpl. rewrite lookup_insert_eq. simpl.
  rewrite (proj2 (Z.eqb_neq m 0)) by lia. simpl.
  rewrite insert_insert_eq.
  rewrite insert_app_r_alt by done.
  by rewrite Nat.sub_diag.
Qed.

Lemma clicks_selected n m lastChild cardReference cardName cardType s :
  cardType ≠ "hero" →
  getElementById ("row-" +:+ cardReference) s = None →
  0 < m →
  clicks (replicate n (click_card_display cardReference cardName cardType))
    (selected m lastChild cardReference cardName s)
  = Some (selected (m + Z.of_nat n) lastChild cardReference cardName s).
Proof.
  intros Hty Hrow. revert m. induction n as [|n IH]; intros m Hm.
  - simpl. by rewrite Z.add_0_r.
  - cbn [replicate clicks click]. rewrite cardDisplay_selected by done.
    simpl. rewrite IH by lia. do 2 f_equal. lia.
Qed.

(** C1: n select clicks in a row on a normal card reference R that had no
    row, from a page whose deck column holds its template: the row of R
    displays n, and the change-set entry of R is that same n. *)
Theorem select_clicks_count cardReference cardName cardType (n : nat) s :
  cardType ≠ "hero" →
  getElementById ("row-" +:+ cardReference) s = None →
  is_Some (lastElementChild s) →
  (1 ≤ n)%nat →
  ∃ s', clicks (replicate n (click_card_display cardReference cardName cardType)) s
        = Some s'
        ∧ displayed cardReference s' = Some (ToString (Int (Z.of_nat n)))
        ∧ Number <$> displayed cardReference s' = Some (Int (Z.of_nat n))
        ∧ decklistChanges s' !! cardReference = Some (Int (Z.of_nat n)).
Proof.
  intros Hty Hrow [lastChild Hlast] Hn.
  destruct n as [|n]; [lia|].
  exists (selected (Z.of_nat (S n)) lastChild cardReference cardName s).
  assert (Hshown : displayed cardReference
            (selected (Z.of_nat (S n)) lastChild cardReference cardName s)
          = Some (ToString (Int (Z.of_nat (S n))))).
  { unfold displayed. by rewrite getElementById_selected. }
  split_and!.
  - cbn [replicate clicks click].
    rewrite (cardDisplay_new _ _ _ _ lastChild) by done. simpl.
    change (set_changes _ _) with (selected 1 lastChild cardReference cardName s).
    rewrite clicks_selected by (done || lia). do 2 f_equal. lia.
  - done.
  - rewrite Hshown. exact (f_equal Some (Number_ToString (Int (Z.of_nat (S n))))).
  - simpl. apply lookup_insert_eq.
Qed.

(** ** Frames of the clicks *)

Lemma dispatch_frame (fs : list listener) (target : nat) (s s' : State) :
  dispatch fs target s = Some s' → s' = set_column (edit_deck_column s') s.
Proof.
  revert s. induction fs as [|f fs IH]; intros s; simpl.
  - intros [= <-]. by destruct s.
  - destruct (call f target s) as [s1|] eqn:Hcall; simpl; [|discriminate].
    apply call_changes_only_row in Hcall as (_ & _ & Hs1 & _).
    case_match.
    + intros [= <-]. done.
    + intros Hrest. apply IH in Hrest. rewrite Hrest, Hs1. done.
Qed.

Lemma cardDisplay_normal_frame cardReference cardName cardType s s' :
  cardType ≠ "hero" →
  cardDisplay cardReference cardName cardType s = Some s' →
  (hero_name s', hero_cardReference s', remove_hero_disabled s')
  = (hero_name s, hero_cardReference s, remove_hero_disabled s).
Proof.
  intros Hty. unfold cardDisplay. rewrite decide_False by done.
  destruct (getElementById _ s) as [[i r]|].
  - by intros [= <-].
  - destruct (lastElementChild s); simpl; [|discriminate]. by intros [= <-].
Qed.

Lemma slot_eq s s' :
  (hero_name s', hero_cardReference s') = (hero_name s, hero_cardReference s) →
  slot s' = slot s.
Proof. unfold slot. by intros [= -> ->]. Qed.

(** ** The hero slot *)

(** C3: the hero slot holds one reference.  With the slot occupied, a
    select click on a hero card leaves the whole state as it is: the name
    and the stored reference of the hero in place, and the change-set.  A
    click changes the slot only from EMPTY to OCCUPIED, when it selects a
    hero, and from OCCUPIED to EMPTY, when it removes the hero. *)
Theorem hero_slot_transitions (e : event) (s s' : State) :
  click e s = Some s' →
  (∀ H cardReference cardName,
     slot s = OCCUPIED H →
     e = click_card_display cardReference cardName "hero" →
     s' = s)
  ∧ (slot s' ≠ slot s →
     (slot s = EMPTY
      ∧ ∃ cardReference cardName,
          e = click_card_display cardReference cardName "hero"
          ∧ slot s' = OCCUPIED cardReference
          ∧ hero_name s' = cardName)
     ∨ (∃ H, slot s = OCCUPIED H ∧ e = click_remove_hero ∧ slot s' = EMPTY)).
Proof.
  destruct e as [cardReference cardName cardType|i|i|]; simpl.
  - destruct (decide (cardType = "hero")) as [->|Hty].
    + unfold cardDisplay. rewrite decide_True by done.
      destruct (decide (hero_name s = "")) as [Hempty|Hocc].
      * intros [= <-]. split.
        -- intros H R name Hslot _. unfold slot in Hslot.
           by rewrite decide_True in Hslot.
        -- intros Hne. left. unfold slot in *. rewrite decide_True in * by done.
           simpl in *. split; [done|]. exists cardReference, cardName.
           by case_decide.
      * intros [= <-]. split; [done|]. by intros [].
    + intros Hclick. apply cardDisplay_normal_frame in Hclick; [|done].
      split.
      * intros H R name _ [= _ _ Heq]. by destruct Hty.
      * intros []. apply slot_eq. congruence.
  - destruct (edit_deck_column s !! i) as [r|]; simpl; [|discriminate].
    destruct (row_hidden r); [discriminate|]. intros Hd.
    apply dispatch_frame in Hd as ->. split; [discriminate|]. by intros [].
  - destruct (edit_deck_column s !! i) as [r|]; simpl; [|discriminate].
    destruct (row_hidden r); [discriminate|]. intros Hd.
    apply dispatch_frame in Hd as ->. split; [discriminate|]. by intros [].
  - destruct (remove_hero_disabled s); [discriminate|]. intros [= <-].
    split; [discriminate|]. intros Hne. right.
    rewrite slot_removeHero in *. destruct (slot s) as [|H]; [done|]. by exists H.
Qed.

(** ** The template row

    The template is the last element child of the deck column when the
    page is loaded.  It is hidden, so no click removes it, and every row
    appended after it is a clone of it or of one of its clones. *)

Lemma template_kept_load template s :
  lastElementChild s = Some template →
  row_hidden template = true →
  template_kept template (edit_deck_column s).
Proof.
  unfold lastElementChild. rewrite last_lookup. intros Hlast Hhidden.
  exists (pred (length (edit_deck_column s))), template. split_and!; [done..|].
  intros j r Hj Hr. apply lookup_lt_Some in Hr. lia.
Qed.

Lemma template_kept_last template column lastChild :
  template_kept template column →
  last column = Some lastChild →
  row_markup lastChild = row_markup template.
Proof.
  intros (k & h & Hk & _ & Hmark & Hafter). rewrite last_lookup. intros Hlast.
  destruct (decide (k = pred (length column))) as [->|Hne].
  - congruence.
  - apply (Hafter (pred (length column))); [|done].
    apply lookup_lt_Some in Hk. lia.
Qed.

Lemma template_kept_insert template column i r r' :
  template_kept template column →
  column !! i = Some r →
  row_hidden r' = row_hidden r →
  row_markup r' = row_markup r →
  template_kept template (<[i := r']> column).
Proof.
  intros (k & h & Hk & Hhidden & Hmark & Hafter) Hi Hh Hm.
  assert (Hlt : (i < length column)%nat) by by eapply lookup_lt_Some.
  destruct (decide (i = k)) as [->|Hne].
  - exists k, r'. rewrite list_lookup_insert_eq by done.
    split_and!; [done|congruence|congruence|].
    intros j x Hj. rewrite list_lookup_insert_ne by lia. by apply Hafter.
  - exists k, h. rewrite list_lookup_insert_ne by done.
    split_and!; [done..|]. intros j x Hj.
    destruct (decide (i = j)) as [->|Hij].
    + rewrite list_lookup_insert_eq by done. intros [= <-].
      rewrite Hm. by apply (Hafter j).
    + rewrite list_lookup_insert_ne by done. by apply Hafter.
Qed.

Lemma template_kept_delete template column i r :
  template_kept template column →
  column !! i = Some r →
  row_hidden r = false →
  template_kept template (delete i column).
Proof.
  intros (k & h & Hk & Hhidden & Hmark & Hafter) Hi Hvisible.
  assert (i ≠ k) by (intros ->; congruence).
  destruct (decide (i < k)%nat).
  - exists (pred k), h. split_and!; [|done..|].
    + rewrite list_lookup_delete_ge by lia. by replace (S (pred k)) with k by lia.
    + intros j x Hj. rewrite list_lookup_delete_ge by lia.
      apply Hafter. lia.
  - exists k, h. split_and!; [|done..|].
    + by rewrite list_lookup_delete_lt by lia.
    + intros j x Hj. destruct (decide (j < i)%nat).
      * rewrite list_lookup_delete_lt by done. by apply Hafter.
      * rewrite list_lookup_delete_ge by lia. apply Hafter. lia.
Qed.

Lemma template_kept_app template column r :
  template_kept template column →
  row_markup r = row_markup template →
  template_kept template (column ++ [r]).
Proof.
  intros (k & h & Hk & Hhidden & Hmark & Hafter) Hm.
  exists k, h. split_and!; [|done..|].
  - by apply lookup_app_l_Some.
  - intros j x Hj Hx. apply lookup_app_Some in Hx as [Hx | [_ Hx]].
    + by apply (Hafter j).
    + apply list_lookup_singleton_Some in Hx as [_ <-]. done.
Qed.

Lemma template_kept_dispatch template fs target s s' r :
  dispatch fs target s = Some s' →
  edit_deck_column s !! target = Some r →
  row_hidden r = false →
  template_kept template (edit_deck_column s) →
  template_kept template (edit_deck_column s').
Proof.
  revert s r. induction fs as [|f fs IH]; intros s r; simpl.
  - by intros [= <-].
  - destruct (call f target s) as [s1|] eqn:Hcall; simpl; [|discriminate].
    intros Hrest Hr Hvisible Hkept.
    apply call_changes_only_row in Hcall as (r0 & Hr0 & _ & Hcol).
    assert (r0 = r) as -> by congruence.
    destruct Hcol as [Hcol | [text Hcol]]; rewrite Hcol in *.
    + rewrite length_delete in Hrest by eauto.
      rewrite (proj2 (Nat.ltb_lt _ _)) in Hrest
        by (apply lookup_lt_Some in Hr; lia).
      injection Hrest as <-. rewrite Hcol. by eapply template_kept_delete.
    + rewrite length_insert, Nat.ltb_irrefl in Hrest.
      eapply (IH s1 (set_card_quantity text r)); [done| |done|].
      * rewrite Hcol. apply list_lookup_insert_eq. by eapply lookup_lt_Some.
      * rewrite Hcol. by eapply template_kept_insert.
Qed.

Lemma template_kept_click template e s s' :
  click e s = Some s' →
  template_kept template (edit_deck_column s) →
  template_kept template (edit_deck_column s').
Proof.
  destruct e as [cardReference cardName cardType|i|i|]; simpl.
  - unfold cardDisplay. case_decide.
    + case_decide; by intros [= <-].
    + destruct (getElementById _ s) as [[i r]|] eqn:Hrow.
      * intros [= <-] Hkept. simpl.
        apply getElementById_Some in Hrow as [Hi _].
        by eapply template_kept_insert.
      * destruct (lastElementChild s) as [lastChild|] eqn:Hlast; simpl;
          [|discriminate].
        intros [= <-] Hkept. simpl. apply template_kept_app; [done|].
        simpl. by eapply template_kept_last.
  - destruct (edit_deck_column s !! i) as [r|] eqn:Hr; simpl; [|discriminate].
    destruct (row_hidden r) eqn:Hvisible; [discriminate|].
    intros Hd. by eapply template_kept_dispatch.
  - destruct (edit_deck_column s !! i) as [r|] eqn:Hr; simpl; [|discriminate].
    destruct (row_hidden r) eqn:Hvisible; [discriminate|].
    intros Hd. by eapply template_kept_dispatch.
  - destruct (remove_hero_disabled s); [discriminate|]. intros [= <-].
    by rewrite removeHero_fields.
Qed.

Lemma template_kept_clicks template es s s' :
  clicks es s = Some s' →
  template_kept template (edit_deck_column s) →
  template_kept template (edit_deck_column s').
Proof.
  revert s. induction es as [|e es IH]; intros s; simpl.
  - by intros [= <-].
  - destruct (click e s) as [s1|] eqn:He; simpl; [|discriminate].
    intros Hrest Hkept. eapply IH; [done|]. by eapply template_kept_click.
Qed.

(** ** New rows *)

Lemma newCardElement_fields lastChild cardReference cardName :
  newCardElement lastChild cardReference cardName
  = {| row_id := "row-" +:+ cardReference;
       card_quantity := "1";
       card_name := cardName;
       row_hidden := false;
       remove_card_btn := [on_decreaseCardQuantity];
       add_card_btn := [on_increaseCardQuantity];
       row_markup := row_markup lastChild |}.
Proof. reflexivity. Qed.

Lemma click_new_row_buttons s column r :
  edit_deck_column s = column ++ [r] →
  row_hidden r = false →
  remove_card_btn r = [on_decreaseCardQuantity] →
  add_card_btn r = [on_increaseCardQuantity] →
  click (click_add_card_btn (length column)) s
  = increaseCardQuantity (length column) s
  ∧ click (click_remove_card_btn (length column)) s
    = decreaseCardQuantity (length column) s.
Proof.
  intros Hcol Hvisible Hremove Hadd. unfold click.
  assert (Hr : edit_deck_column s !! length column = Some r).
  { rewrite Hcol. apply list_lookup_middle. done. }
  rewrite Hr. simpl. rewrite Hvisible, Hremove, Hadd. simpl.
  split.
  - destruct (increaseCardQuantity (length column) s) as [s1|]; simpl; [|done].
    by case_match.
  - destruct (decreaseCardQuantity (length column) s) as [s1|]; simpl; [|done].
    by case_match.
Qed.

(** C7: in every state the clicks of the user lead to from a page whose
    deck column ends with its hidden template, a select click on a normal
    reference R that has no row creates exactly one row: the clone of the
    template with id row-R, quantity text "1", the name of the card, not
    hidden, appended to the deck column; the change-set entry of R becomes
    1.  The buttons of the new row carry the listeners that page load gives
    the rows it finds, so that a click on them runs
    [increaseCardQuantity] and [decreaseCardQuantity]. *)
Theorem select_new_card template es s0 s cardReference cardName cardType :
  lastElementChild s0 = Some template →
  row_hidden template = true →
  clicks es s0 = Some s →
  cardType ≠ "hero" →
  getElementById ("row-" +:+ cardReference) s = None →
  let row := {| row_id := "row-" +:+ cardReference;
                card_quantity := "1";
                card_name := cardName;
                row_hidden := false;
                remove_card_btn := [on_decreaseCardQuantity];
                add_card_btn := [on_increaseCardQuantity];
                row_markup := row_markup template |} in
  ∃ s', cardDisplay cardReference cardName cardType s = Some s'
        ∧ s' = set_changes (<[cardReference := Int 1]> (decklistChanges s))
                 (set_column (edit_deck_column s ++ [row]) s)
        ∧ getElementById ("row-" +:+ cardReference) s'
          = Some (length (edit_deck_column s), row)
        ∧ (∀ r, remove_card_btn r = [] → add_card_btn r = [] →
             remove_card_btn (wire r) = remove_card_btn row
             ∧ add_card_btn (wire r) = add_card_btn row)
        ∧ click (click_add_card_btn (length (edit_deck_column s))) s'
          = increaseCardQuantity (length (edit_deck_column s)) s'
        ∧ click (click_remove_card_btn (length (edit_deck_column s))) s'
          = decreaseCardQuantity (length (edit_deck_column s)) s'.
Proof.
  intros Hlast Hhidden Hclicks Hty Hrow row.
  assert (Hkept : template_kept template (edit_deck_column s)).
  { eapply template_kept_clicks; [done|]. by apply template_kept_load. }
  destruct (lastElementChild s) as [lastChild|] eqn:Hl.
  2:{ destruct Hkept as (k & h & Hk & _). unfold lastElementChild in Hl.
      apply last_None in Hl. by rewrite Hl in Hk. }
  assert (Hnew : newCardElement lastChild cardReference cardName = row).
  { rewrite newCardElement_fields. subst row. simpl. f_equal.
    by eapply template_kept_last. }
  eexists. split; [by eapply cardDisplay_new|]. rewrite Hnew.
  split_and!; [done| | |eapply click_new_row_buttons; done..].
  - unfold getElementById. simpl. by apply list_find_app_new.
  - intros r Hremove Hadd. unfold wire. simpl. by rewrite Hremove, Hadd.
Qed.

Lemma row_id_inj (a b : string) : "row-" +:+ a = "row-" +:+ b → a = b.
Proof. intros Heq. cbn in Heq. by injection Heq. Qed.







(** ** The faction chart *)

Section SortFacts.
Context {A : Type} (comparefn : A → A → Z).

Lemma sort_insert_Permutation (x : A) (l : list A) :
  sort_insert comparefn x l ≡ₚ x :: l.
Proof.
  induction l as [|y l IH]; simpl; [done|].
  case_match; [done|]. rewrite IH. apply Permutation_swap.
Qed.

Lemma sort_Permutation (l : list A) : sort comparefn l ≡ₚ l.
Proof.
  induction l as [|x l IH]; simpl; [done|].
  by rewrite sort_insert_Permutation, IH.
Qed.

(** The order the comparator stands for. *)
Context (R : A → A → Prop).
Hypothesis comparefn_le : ∀ x y, comparefn x y ≤ 0 → R x y.
Hypothesis comparefn_gt : ∀ x y, 0 < comparefn x y → R y x.

Lemma sort_insert_Sorted (x : A) (l : list A) :
  Sorted R l → Sorted R (sort_insert comparefn x l).
Proof.
  induction l as [|y l IH]; simpl; intros Hs.
  - by repeat constructor.
  - destruct (Z.leb_spec (comparefn x y) 0) as [Hle|Hgt].
    + constructor; [done|]. constructor. by apply comparefn_le.
    + apply Sorted_inv in Hs as [Hs Hhd]. constructor; [by apply IH|].
      destruct l as [|z l]; simpl.
      * constructor. by apply comparefn_gt.
      * case_match; constructor; [by apply comparefn_gt|].
        by apply HdRel_inv in Hhd.
Qed.

Lemma sort_Sorted (l : list A) : Sorted R (sort comparefn l).
Proof.
  induction l as [|x l IH]; simpl; [constructor|].
  by apply sort_insert_Sorted.
Qed.
End SortFacts.

Lemma deckStats_StronglySorted entries :
  StronglySorted (λ a b : string * Z, b.2 ≤ a.2) (deckStats entries).
Proof.
  apply Sorted_StronglySorted.
  - intros a b c Hab Hbc. simpl in *. lia.
  - apply sort_Sorted; intros a b; simpl; lia.
Qed.

Lemma StronglySorted_lookup {A} (R : A → A → Prop) (l : list A) i j x y :
  StronglySorted R l → (i < j)%nat → l !! i = Some x → l !! j = Some y → R x y.
Proof.
  intros Hs. revert i j. induction Hs as [|z l Hs IH Hall]; intros i j Hij Hi Hj.
  - done.
  - destruct j as [|j]; [lia|]. simpl in Hj. destruct i as [|i]; simpl in Hi.
    + injection Hi as ->. rewrite Forall_forall in Hall. apply Hall.
      by eapply list_elem_of_lookup_2.
    + apply (IH i j); [lia|done..].
Qed.

(** C8: the chart script turns the entries of the faction-to-count object
    into the arrays [labels] and [data], ordered by count from the largest
    to the smallest; position by position, [labels] holds the faction whose
    count [data] holds: the pairs are the entries of the object, each once. *)
Theorem chart_data_sorted (entries : list (string * Z)) :
  zip (labels entries) (data entries) ≡ₚ entries
  ∧ length (labels entries) = length entries
  ∧ length (data entries) = length entries
  ∧ (∀ i j x y, (i ≤ j)%nat →
       data entries !! i = Some x → data entries !! j = Some y → y ≤ x)
  ∧ (∀ i faction count,
       labels entries !! i = Some faction →
       data entries !! i = Some count →
       (faction, count) ∈ entries
       ∧ (NoDup entries.*1 →
          (list_to_map entries : gmap string Z) !! faction = Some count)).
Proof.
  assert (Hperm : deckStats entries ≡ₚ entries) by apply sort_Permutation.
  assert (Hzip : zip (labels entries) (data entries) = deckStats entries).
  { unfold labels, data. generalize (deckStats entries).
    induction l as [|[f c] l IH]; [done|]. csimpl. by rewrite IH. }
  split_and!.
  - by rewrite Hzip.
  - unfold labels. by rewrite length_fmap, Hperm.
  - unfold data. by rewrite length_fmap, Hperm.
  - intros i j x y Hij. unfold data. rewrite !list_lookup_fmap.
    destruct (deckStats entries !! i) as [a|] eqn:Ha; simpl; [|discriminate].
    destruct (deckStats entries !! j) as [b|] eqn:Hb; simpl; [|discriminate].
    intros [= <-] [= <-].
    destruct (decide (i = j)) as [->|Hne]; [by simplify_eq|].
    eapply (StronglySorted_lookup _ _ i j a b (deckStats_StronglySorted entries));
      [lia|done..].
  - intros i faction count. unfold labels, data. rewrite !list_lookup_fmap.
    destruct (deckStats entries !! i) as [[f c]|] eqn:Ha; simpl; [|discriminate].
    intros [= <-] [= <-].
    assert (Hin : (f, c) ∈ entries).
    { rewrite <- Hperm. by eapply list_elem_of_lookup_2. }
    split; [done|]. intros Hnd. by apply elem_of_list_to_map.
Qed.

(** ** Quantities stay counts

    From a page whose visible rows show positive quantities, no click ever
    puts a negative quantity or a 0 on display. *)

Lemma shows_quantity_Number r :
  shows_quantity r = true →
  ∃ q, Number (card_quantity r) = Int q
       ∧ 0 ≤ q ∧ (row_hidden r = false → 0 < q).
Proof.
  unfold shows_quantity. destruct (Number (card_quantity r)) as [q|]; [|done].
  intros Hq. exists q. split; [done|].
  destruct (row_hidden r); [apply Z.leb_le in Hq|apply Z.ltb_lt in Hq];
    split; (done || lia).
Qed.

Lemma shows_quantity_set r q :
  0 < q → shows_quantity (set_card_quantity (ToString (Int q)) r) = true.
Proof.
  intros Hq. unfold shows_quantity.
  change (card_quantity (set_card_quantity ?t r)) with t.
  rewrite Number_ToString. simpl.
  destruct (row_hidden r); [apply Z.leb_le|apply Z.ltb_lt]; lia.
Qed.

Lemma counts_call f target s s' :
  call f target s = Some s' → counts s → counts s'.
Proof.
  intros Hcall [Hrows Hchanges].
  destruct f; unfold call, decreaseCardQuantity, increaseCardQuantity in Hcall;
    destruct (edit_deck_column s !! target) as [r|] eqn:Hr; simpl in Hcall;
    try discriminate;
    destruct (shows_quantity_Number r) as (q & Hq & Hq0 & _);
    try (by eapply Forall_lookup_1 in Hrows);
    rewrite Hq in Hcall; simpl in Hcall.
  - destruct (Z.ltb_spec 0 (q - 1)); injection Hcall as <-; split; try done; simpl.
    + apply Forall_insert; [done|]. by apply shows_quantity_set.
    + by apply Forall_delete.
  - injection Hcall as <-. split; [|done]. simpl.
    apply Forall_insert; [done|]. apply shows_quantity_set. lia.
Qed.

Lemma counts_dispatch fs target s s' :
  dispatch fs target s = Some s' → counts s → counts s'.
Proof.
  revert s. induction fs as [|f fs IH]; intros s; simpl.
  - by intros [= <-].
  - destruct (call f target s) as [s1|] eqn:Hcall; simpl; [|discriminate].
    intros Hrest Hs. apply counts_call in Hcall; [|done].
    case_match; [by injection Hrest as <-|by eapply IH].
Qed.

Lemma counts_cardDisplay cardReference cardName cardType s s' :
  cardDisplay cardReference cardName cardType s = Some s' → counts s → counts s'.
Proof.
  intros Hclick [Hrows Hchanges]. unfold cardDisplay in Hclick.
  assert (Hone : ∃ q, Int 1 = Int q ∧ 0 ≤ q) by (exists 1; split; [done|lia]).
  case_decide.
  - case_decide; injection Hclick as <-; split; try done.
    simpl. by apply map_Forall_insert_2.
  - destruct (getElementById _ s) as [[i r]|] eqn:Hrow.
    + injection Hclick as <-.
      apply getElementById_Some in Hrow as [Hi _].
      destruct (shows_quantity_Number r) as (q & Hq & Hq0 & _);
        [by eapply Forall_lookup_1 in Hrows|].
      assert (Hquantity : ∃ n,
        or_else (decklistChanges s !! cardReference) (Number (card_quantity r))
        = Int n ∧ 0 ≤ n).
      { rewrite Hq. destruct (decklistChanges s !! cardReference) as [v|] eqn:Hv.
        - apply Hchanges in Hv as (n & -> & Hn). simpl.
          destruct (n =? 0); simpl; eauto.
        - simpl. eauto. }
      destruct Hquantity as (n & -> & Hn). split; simpl.
      * rewrite lookup_insert_eq. simpl.
        apply Forall_insert; [done|]. apply (shows_quantity_set r (n + 1)). lia.
      * apply map_Forall_insert_2; [|done]. exists (n + 1). split; [done|lia].
    + destruct (lastElementChild s) as [lastChild|]; simpl in Hclick;
        [|discriminate].
      injection Hclick as <-. split; simpl.
      * apply Forall_app. split; [done|]. by apply Forall_singleton.
      * by apply map_Forall_insert_2.
Qed.

Lemma counts_removeHero s : counts s → counts (removeHero s).
Proof.
  intros [Hrows Hchanges]. unfold removeHero. case_match; split; try done; simpl.
  - by apply map_Forall_delete.
  - apply map_Forall_insert_2; [|done]. by exists 0.
Qed.

Lemma counts_click e s s' : click e s = Some s' → counts s → counts s'.
Proof.
  destruct e as [cardReference cardName cardType|i|i|]; simpl.
  - apply counts_cardDisplay.
  - destruct (edit_deck_column s !! i) as [r|]; simpl; [|discriminate].
    destruct (row_hidden r); [discriminate|]. apply counts_dispatch.
  - destruct (edit_deck_column s !! i) as [r|]; simpl; [|discriminate].
    destruct (row_hidden r); [discriminate|]. apply counts_dispatch.
  - destruct (remove_hero_disabled s); [discriminate|]. intros [= <-].
    apply counts_removeHero.
Qed.

Lemma counts_clicks es s s' : clicks es s = Some s' → counts s → counts s'.
Proof.
  revert s. induction es as [|e es IH]; intros s; simpl.
  - by intros [= <-].
  - destruct (click e s) as [s1|] eqn:He; simpl; [|discriminate].
    intros Hrest Hs. eapply IH; [done|]. by eapply counts_click.
Qed.

(** From a page whose rows show counts and whose change-set holds counts,
    every visible row shows a positive quantity after any clicks. *)
Lemma clicks_never_show_zero es s s' r :
  counts s →
  clicks es s = Some s' →
  r ∈ edit_deck_column s' →
  row_hidden r = false →
  ∃ q, Number (card_quantity r) = Int q ∧ 0 < q.
Proof.
  intros Hs Hclicks Hr Hvisible.
  destruct (counts_clicks _ _ _ Hclicks Hs) as [Hrows _].
  rewrite Forall_forall in Hrows.
  destruct (shows_quantity_Number r (Hrows r Hr)) as (q & Hq & _ & Hpos).
  exists q. auto.
Qed.

(** ** The properties on the example page *)

(** C2 fails as worded: a card selected once and raised to 3 with its add
    button has the change-set entry 1; the next select click shows 2, not
    4. *)
Lemma select_after_increase_counterexample :
  ∃ s, example_raised = Some s
       ∧ displayed "ALT_CORE_B_BR_10_C" s = Some "3"
       ∧ decklistChanges s !! "ALT_CORE_B_BR_10_C" = Some (Int 1)
       ∧ displayed "ALT_CORE_B_BR_10_C"
           <$> cardDisplay "ALT_CORE_B_BR_10_C" "Kojo" "character" s
         = Some (Some "2")
       ∧ ¬ select_increments_displayed "ALT_CORE_B_BR_10_C" "Kojo" "character" s.
Proof.
  eexists. split; [vm_compute; reflexivity|].
  split_and!; [vm_compute; reflexivity..|].
  intros Hclaim. destruct (Hclaim _ _ eq_refl) as (s' & Hs' & Hshown & _).
  injection Hs' as <-. vm_compute in Hshown. discriminate Hshown.
Qed.

Lemma select_clicks_count_witness :
  ∃ s', clicks (replicate 3 (click_card_display "ALT_CORE_B_BR_10_C" "Kojo" "character"))
          example_page = Some s'
        ∧ displayed "ALT_CORE_B_BR_10_C" s' = Some "3"
        ∧ Number <$> displayed "ALT_CORE_B_BR_10_C" s' = Some (Int 3)
        ∧ decklistChanges s' !! "ALT_CORE_B_BR_10_C" = Some (Int 3).
Proof.
  apply (select_clicks_count "ALT_CORE_B_BR_10_C" "Kojo" "character" 3 example_page).
  - discriminate.
  - reflexivity.
  - eexists. reflexivity.
  - lia.
Defined.

Lemma cardDisplay_existing_row_witness :
  ∃ s', cardDisplay "ALT_CORE_B_AX_08_C" "Foundry Mechanic" "character" example_page
        = Some s'
        ∧ displayed "ALT_CORE_B_AX_08_C" s' = Some "4"
        ∧ decklistChanges s' !! "ALT_CORE_B_AX_08_C" = Some (Int 4)
        ∧ (decklistChanges example_page !! "ALT_CORE_B_AX_08_C" = None
           ∨ decklistChanges example_page !! "ALT_CORE_B_AX_08_C" = Some (Int 0)
           ∨ decklistChanges example_page !! "ALT_CORE_B_AX_08_C" = Some (Int 3) →
           displayed "ALT_CORE_B_AX_08_C" s' = Some "4").
Proof.
  refine (cardDisplay_existing_row "ALT_CORE_B_AX_08_C" "Foundry Mechanic" "character"
            example_page 0 (wire example_mechanic) _ _).
  - discriminate.
  - reflexivity.
Defined.

Lemma hero_slot_transitions_witness :
  click click_remove_hero example_hero_page = Some (removeHero example_hero_page)
  ∧ slot example_hero_page = OCCUPIED "ALT_CORE_B_AX_01_C"
  ∧ (slot (removeHero example_hero_page) ≠ slot example_hero_page →
     (slot example_hero_page = EMPTY
      ∧ ∃ cardReference cardName,
          click_remove_hero = click_card_display cardReference cardName "hero"
          ∧ slot (removeHero example_hero_page) = OCCUPIED cardReference
          ∧ hero_name (removeHero example_hero_page) = cardName)
     ∨ (∃ H, slot example_hero_page = OCCUPIED H
             ∧ click_remove_hero = click_remove_hero
             ∧ slot (removeHero example_hero_page) = EMPTY)).
Proof.
  split; [reflexivity|]. split; [reflexivity|].
  exact (proj2 (hero_slot_transitions click_remove_hero example_hero_page
                  (removeHero example_hero_page) eq_refl)).
Defined.



Lemma decreaseCardQuantity_click_witness :
  (∃ s' r', decreaseCardQuantity 0 example_page = Some s'
            ∧ edit_deck_column s' !! 0%nat = Some r'
            ∧ card_quantity r' = "2"
            ∧ length (edit_deck_column s') = 3%nat)
  ∧ (∃ s', decreaseCardQuantity 1 example_page = Some s'
           ∧ edit_deck_column s' = [wire example_mechanic; wire example_template]
           ∧ getElementById "row-ALT_CORE_B_MU_12_C" s' = None).
Proof.
  split.
  - destruct (decreaseCardQuantity_click 0 (wire example_mechanic) 3 example_page)
      as (Hwrite & _ & _); [reflexivity|reflexivity|by compute_done|].
    destruct Hwrite as (s' & r' & Hdec & Hr' & Htext & _ & _ & Hlen & _); [lia|].
    exists s', r'. split_and!; [exact Hdec|exact Hr'|exact Htext|exact Hlen].
  - destruct (decreaseCardQuantity_click 1 (wire example_parvati) 1 example_page)
      as (_ & Hremove & _); [reflexivity|reflexivity|by compute_done|].
    destruct Hremove as (s' & Hdec & Hcol & _ & _ & _ & _ & Hid); [lia|].
    exists s'. split_and!; [exact Hdec|exact Hcol|].
    apply Hid. by compute_done.
Defined.

Lemma quantity_click_frame_witness :
  ∃ s', increaseCardQuantity 0 example_hero_page = Some s'
        ∧ displayed "ALT_CORE_B_AX_08_C" s' = Some "4"
        ∧ decklistChanges s' = decklistChanges example_hero_page.
Proof.
  eexists. split; [reflexivity|]. split; [reflexivity|].
  exact (proj1 (quantity_click_frame 0 example_hero_page _ (or_introl eq_refl))).
Defined.

Lemma select_new_card_witness :
  ∃ s s', example_raised = Some s
          ∧ cardDisplay "ALT_CORE_B_LY_05_C" "Ouroboros Trickster" "character" s = Some s'
          ∧ lastElementChild s' =
              Some {| row_id := "row-ALT_CORE_B_LY_05_C";
                      card_quantity := "1";
                      card_name := "Ouroboros Trickster";
                      row_hidden := false;
                      remove_card_btn := [on_decreaseCardQuantity];
                      add_card_btn := [on_increaseCardQuantity];
                      row_markup := "template" |}
          ∧ decklistChanges s' !! "ALT_CORE_B_LY_05_C" = Some (Int 1).
Proof.
  destruct (select_new_card (wire example_template)
              [ click_card_display "ALT_CORE_B_BR_10_C" "Kojo" "character";
                click_add_card_btn 3; click_add_card_btn 3 ]
              example_page (default example_page example_raised)
              "ALT_CORE_B_LY_05_C" "Ouroboros Trickster" "character")
    as (s' & Hclick & Hs' & _);
    [reflexivity|reflexivity|vm_compute; reflexivity|discriminate
    |vm_compute; reflexivity|].
  exists (default example_page example_raised), s'.
  split; [vm_compute; reflexivity|]. split; [exact Hclick|].
  rewrite Hs'. split; vm_compute; reflexivity.
Defined.


Lemma chart_data_sorted_witness :
  labels example_factions !! 0%nat = Some "muna"
  ∧ data example_factions !! 0%nat = Some 20
  ∧ ("muna", 20) ∈ example_factions
  ∧ (list_to_map example_factions : gmap string Z) !! "muna" = Some 20.
Proof.
  split; [reflexivity|]. split; [reflexivity|].
  destruct (chart_data_sorted example_factions) as (_ & _ & _ & _ & Hpair).
  destruct (Hpair 0%nat "muna" 20 eq_refl eq_refl) as [Hin Hmap].
  split; [exact Hin|]. apply Hmap. by compute_done.
Defined.


(** * Further properties of the deck editor *)

(** ** Invariants of the clicks *)

Section ClickInvariant.
Context (P : State → Prop).
Hypothesis P_call : ∀ f target s s', call f target s = Some s' → P s → P s'.
Hypothesis P_cardDisplay : ∀ cardReference cardName cardType s s',
  cardDisplay cardReference cardName cardType s = Some s' → P s → P s'.
Hypothesis P_removeHero : ∀ s, P s → P (removeHero s).

Lemma dispatch_invariant fs target s s' :
  dispatch fs target s = Some s' → P s → P s'.
Proof.
  revert s. induction fs as [|f fs IH]; intros s; simpl.
  - by intros [= <-].
  - destruct (call f target s) as [s1|] eqn:Hcall; simpl; [|discriminate].
    intros Hrest Hs. apply P_call in Hcall; [|done].
    case_match; [by injection Hrest as <-|by eapply IH].
Qed.

Lemma click_invariant e s s' : click e s = Some s' → P s → P s'.
Proof.
  destruct e as [cardReference cardName cardType|i|i|]; simpl.
  - apply P_cardDisplay.
  - destruct (edit_deck_column s !! i) as [r|]; simpl; [|discriminate].
    destruct (row_hidden r); [discriminate|]. apply dispatch_invariant.
  - destruct (edit_deck_column s !! i) as [r|]; simpl; [|discriminate].
    destruct (row_hidden r); [discriminate|]. apply dispatch_invariant.
  - destruct (remove_hero_disabled s); [discriminate|]. intros [= <-].
    apply P_removeHero.
Qed.

Lemma clicks_invariant es s s' : clicks es s = Some s' → P s → P s'.
Proof.
  revert s. induction es as [|e es IH]; intros s; simpl.
  - by intros [= <-].
  - destruct (click e s) as [s1|] eqn:He; simpl; [|discriminate].
    intros Hrest Hs. eapply IH; [done|]. by eapply click_invariant.
Qed.
End ClickInvariant.

Lemma cardDisplay_column cardReference cardName cardType s s' :
  cardDisplay cardReference cardName cardType s = Some s' →
  edit_deck_column s' = edit_deck_column s
  ∨ (∃ i r text, edit_deck_column s !! i = Some r
                 ∧ edit_deck_column s' = <[i := set_card_quantity text r]> (edit_deck_column s))
  ∨ (∃ lastChild, getElementById ("row-" +:+ cardReference) s = None
                  ∧ edit_deck_column s'
                    = edit_deck_column s ++ [newCardElement lastChild cardReference cardName]).
Proof.
  unfold cardDisplay. case_decide.
  - case_decide; intros [= <-]; by left.
  - destruct (getElementById _ s) as [[i r]|] eqn:Hrow.
    + intros [= <-]. right. left. apply getElementById_Some in Hrow as [Hi _].
      by eexists i, r, _.
    + destruct (lastElementChild s) as [lastChild|]; simpl; [|discriminate].
      intros [= <-]. right. right. by exists lastChild.
Qed.

Lemma fmap_insert_set_card_quantity {B} (f : Row → B)
    (column : list Row) (i : nat) r text :
  column !! i = Some r →
  f (set_card_quantity text r) = f r →
  f <$> <[i := set_card_quantity text r]> column = f <$> column.
Proof.
  intros Hi Hf. rewrite list_fmap_insert, Hf.
  apply list_insert_id. by rewrite list_lookup_fmap, Hi.
Qed.

(** The ids of the rows stay unique: a row is only ever appended under an
    id that [getElementById] has just failed to find. *)
Theorem clicks_keep_ids_unique es s s' :
  NoDup (row_id <$> edit_deck_column s) →
  clicks es s = Some s' →
  NoDup (row_id <$> edit_deck_column s').
Proof.
  intros Hnd Hclicks.
  apply (clicks_invariant (λ s, NoDup (row_id <$> edit_deck_column s)))
    with (es := es) (s := s); [| | |done|done]; clear.
  - intros f target s s' Hcall Hnd.
    apply call_changes_only_row in Hcall as (r & Hr & _ & [-> | [text ->]]).
    + rewrite list_fmap_delete. eapply sublist_NoDup; [done|apply sublist_delete].
    + by rewrite fmap_insert_set_card_quantity.
  - intros cardReference cardName cardType s s' Hclick Hnd.
    apply cardDisplay_column in Hclick
      as [-> | [(i & r & text & Hr & ->) | (lastChild & Hrow & ->)]].
    + done.
    + by rewrite fmap_insert_set_card_quantity.
    + rewrite fmap_app. apply NoDup_app. split_and!; [done| |apply NoDup_singleton].
      intros id Hid. simpl. rewrite list_elem_of_singleton. intros ->.
      apply getElementById_None in Hrow. rewrite Forall_forall in Hrow.
      apply list_elem_of_fmap in Hid as (r & Hr & Hin). by apply (Hrow r).
  - intros s Hnd. by rewrite removeHero_fields.
Qed.

(** ** The listeners of the rows *)

Lemma wired_load column heroName heroReference removeDisabled :
  Forall (λ r, remove_card_btn r = [] ∧ add_card_btn r = []) column →
  wired (load column heroName heroReference removeDisabled).
Proof.
  intros Hbare. unfold wired, load. simpl. apply Forall_fmap.
  eapply Forall_impl; [exact Hbare|]. intros r [Hremove Hadd].
  unfold wire. simpl. by rewrite Hremove, Hadd.
Qed.

Lemma wired_clicks es s s' : wired s → clicks es s = Some s' → wired s'.
Proof.
  intros Hw Hclicks.
  apply (clicks_invariant wired) with (es := es) (s := s); [| | |done|done];
    clear; unfold wired.
  - intros f target s s' Hcall Hw.
    apply call_changes_only_row in Hcall as (r & Hr & _ & [-> | [text ->]]).
    + by apply Forall_delete.
    + apply Forall_insert; [done|]. exact (Forall_lookup_1 _ _ _ _ Hw Hr).
  - intros cardReference cardName cardType s s' Hclick Hw.
    apply cardDisplay_column in Hclick
      as [-> | [(i & r & text & Hr & ->) | (lastChild & Hrow & ->)]].
    + done.
    + apply Forall_insert; [done|]. exact (Forall_lookup_1 _ _ _ _ Hw Hr).
    + apply Forall_app. split; [done|]. by apply Forall_singleton.
  - intros s Hw. by rewrite removeHero_fields.
Qed.

(** After page load on rows that had no listeners, and after any clicks,
    every visible row of the column, rendered by the server or created by
    a select click, answers a click on its add button with
    [increaseCardQuantity] and a click on its remove button with
    [decreaseCardQuantity], once. *)
Theorem buttons_run_their_handler
    column heroName heroReference removeDisabled es s i r :
  Forall (λ r, remove_card_btn r = [] ∧ add_card_btn r = []) column →
  clicks es (load column heroName heroReference removeDisabled) = Some s →
  edit_deck_column s !! i = Some r →
  row_hidden r = false →
  click (click_add_card_btn i) s = increaseCardQuantity i s
  ∧ click (click_remove_card_btn i) s = decreaseCardQuantity i s.
Proof.
  intros Hbare Hclicks Hr Hvisible.
  assert (Hw : wired s).
  { eapply wired_clicks; [|done]. by apply wired_load. }
  unfold wired in Hw. eapply Forall_lookup_1 in Hw as [Hremove Hadd]; [|done].
  unfold click. rewrite Hr. simpl. rewrite Hvisible, Hremove, Hadd. simpl.
  split.
  - destruct (increaseCardQuantity i s) as [s1|]; simpl; [|done]. by case_match.
  - destruct (decreaseCardQuantity i s) as [s1|]; simpl; [|done]. by case_match.
Qed.

(** ** Select clicks alone keep the page and the change-set in step *)

Lemma list_find_insert_other {A} (P : A → Prop) `{∀ x, Decision (P x)}
    (l : list A) (i : nat) (x y : A) :
  l !! i = Some x → ¬ P x → ¬ P y →
  list_find P (<[i := y]> l) = list_find P l.
Proof.
  revert i. induction l as [|z l IH]; intros i Hi Hx Hy; [done|].
  destruct i as [|i]; simpl in *.
  - injection Hi as ->. by rewrite !decide_False.
  - case_decide; [done|]. by rewrite IH.
Qed.

Lemma agree_cardDisplay cardReference cardName cardType s s' :
  cardType ≠ "hero" →
  cardDisplay cardReference cardName cardType s = Some s' →
  agree s → agree s'.
Proof.
  intros Hty Hclick Hs R v. unfold cardDisplay in Hclick.
  rewrite decide_False in Hclick by done.
  destruct (getElementById _ s) as [[i r]|] eqn:Hrow.
  - injection Hclick as <-. simpl. rewrite lookup_insert_eq. simpl.
    destruct (decide (cardReference = R)) as [->|Hne].
    + rewrite lookup_insert_eq. intros [= <-].
      by apply (displayed_insert_row R s i r).
    + rewrite lookup_insert_ne by done. intros Hv.
      rewrite <- (Hs R v Hv). unfold displayed, getElementById. simpl.
      apply getElementById_Some in Hrow as [Hi Hid].
      rewrite (list_find_insert_other _ _ i r); [done|done|..];
        simpl; rewrite ?Hid; intros Heq; by apply row_id_inj in Heq.
  - destruct (lastElementChild s) as [lastChild|]; simpl in Hclick; [|discriminate].
    injection Hclick as <-. simpl. unfold displayed, getElementById. simpl.
    destruct (decide (cardReference = R)) as [->|Hne].
    + rewrite lookup_insert_eq. intros [= <-].
      by rewrite (list_find_app_new _ _ _ Hrow).
    + rewrite lookup_insert_ne by done. intros Hv.
      specialize (Hs R v Hv). unfold displayed, getElementById in Hs.
      destruct (list_find _ (edit_deck_column s)) as [[j x]|] eqn:Hfind;
        [|discriminate].
      by rewrite (list_find_app_l _ _ _ _ _ Hfind).
Qed.

(** Through any run of select clicks on cards that are no heroes, on one
    reference or on several in any order, every entry of the change-set is
    the quantity its row displays, if that was so before the run; it is so
    when the page is loaded, the change-set being empty. *)
Theorem select_clicks_agree es s s' :
  Forall normal_select es →
  agree s →
  clicks es s = Some s' →
  agree s'.
Proof.
  intros Hes. revert s. induction Hes as [|e es He Hes IH]; intros s Hs; simpl.
  - by intros [= <-].
  - destruct (click e s) as [s1|] eqn:Hclick; simpl; [|discriminate].
    apply IH. destruct e as [cardReference cardName cardType| | |]; try done.
    by eapply agree_cardDisplay.
Qed.

Lemma agree_load column heroName heroReference removeDisabled :
  agree (load column heroName heroReference removeDisabled).
Proof. intros R v. unfold load. simpl. by rewrite lookup_empty. Qed.

(** ** Raising and lowering a quantity *)

Lemma increaseCardQuantity_shows i r q s :
  edit_deck_column s !! i = Some r →
  Number (card_quantity r) = Int q →
  increaseCardQuantity i s
  = Some (set_column
            (<[i := set_card_quantity (ToString (Int (q + 1))) r]> (edit_deck_column s)) s).
Proof.
  intros Hr Hq. unfold increaseCardQuantity. rewrite Hr. simpl. by rewrite Hq.
Qed.

Lemma decreaseCardQuantity_shows i r q s :
  edit_deck_column s !! i = Some r →
  Number (card_quantity r) = Int q →
  0 < q - 1 →
  decreaseCardQuantity i s
  = Some (set_column
            (<[i := set_card_quantity (ToString (Int (q - 1))) r]> (edit_deck_column s)) s).
Proof.
  intros Hr Hq Hpos. unfold decreaseCardQuantity. rewrite Hr. simpl. rewrite Hq.
  simpl. by rewrite (proj2 (Z.ltb_lt 0 (q - 1))).
Qed.

Lemma set_card_quantity_twice text1 text2 r :
  set_card_quantity text1 (set_card_quantity text2 r) = set_card_quantity text1 r.
Proof. done. Qed.

Lemma set_card_quantity_id r : set_card_quantity (card_quantity r) r = r.
Proof. by destruct r. Qed.

Lemma set_column_twice column1 column2 s :
  set_column column1 (set_column column2 s) = set_column column1 s.
Proof. done. Qed.

Lemma set_column_id s : set_column (edit_deck_column s) s = s.
Proof. by destruct s. Qed.

Lemma quantity_rewritten_twice i r text1 text2 s :
  edit_deck_column s !! i = Some r →
  card_quantity r = text1 →
  set_column
    (<[i := set_card_quantity text1 (set_card_quantity text2 r)]>
       (<[i := set_card_quantity text2 r]> (edit_deck_column s)))
    (set_column (<[i := set_card_quantity text2 r]> (edit_deck_column s)) s)
  = s.
Proof.
  intros Hr <-.
  rewrite set_column_twice, list_insert_insert_eq, set_card_quantity_twice,
    set_card_quantity_id, list_insert_id by done.
  apply set_column_id.
Qed.

(** A row that shows the count q, in the decimal form the handlers write,
    q and q+1 being safe integers: for q at least 1 a click on its add
    button followed by a click on its remove button gives the state back,
    and for q at least 2 so do the two clicks in the other order. *)
Theorem increase_decrease_round_trip i r q s :
  edit_deck_column s !! i = Some r →
  card_quantity r = ToString (Int q) →
  1 ≤ q →
  q < MAX_SAFE_INTEGER →
  increaseCardQuantity i s ≫= decreaseCardQuantity i = Some s
  ∧ (2 ≤ q → decreaseCardQuantity i s ≫= increaseCardQuantity i = Some s).
Proof.
  intros Hr Htext Hq _.
  assert (Hnum : Number (card_quantity r) = Int q)
    by (rewrite Htext; apply Number_ToString).
  assert (Hlt : (i < length (edit_deck_column s))%nat) by by eapply lookup_lt_Some.
  split.
  - rewrite (increaseCardQuantity_shows i r q) by done. simpl.
    rewrite (decreaseCardQuantity_shows i (set_card_quantity (ToString (Int (q + 1))) r)
               (q + 1)).
    + f_equal. replace (q + 1 - 1) with q by lia. simpl.
      by apply quantity_rewritten_twice.
    + simpl. by apply list_lookup_insert_eq.
    + exact (Number_ToString (Int (q + 1))).
    + lia.
  - intros Hq2. rewrite (decreaseCardQuantity_shows i r q) by (done || lia). simpl.
    rewrite (increaseCardQuantity_shows i (set_card_quantity (ToString (Int (q - 1))) r)
               (q - 1)).
    + f_equal. replace (q - 1 + 1) with q by lia. simpl.
      by apply quantity_rewritten_twice.
    + simpl. by apply list_lookup_insert_eq.
    + exact (Number_ToString (Int (q - 1))).
Qed.

(** A select click on a card without a row, then a click on the remove
    button of the row it created: the deck column is what it was, and the
    change-set keeps the entry 1 of the card. *)
Theorem select_then_decrease cardReference cardName cardType s :
  cardType ≠ "hero" →
  getElementById ("row-" +:+ cardReference) s = None →
  is_Some (lastElementChild s) →
  clicks [ click_card_display cardReference cardName cardType;
           click_remove_card_btn (length (edit_deck_column s)) ] s
  = Some (set_changes (<[cardReference := Int 1]> (decklistChanges s)) s).
Proof.
  intros Hty Hrow [lastChild Hlast]. cbn [clicks click].
  rewrite (cardDisplay_new _ _ _ _ lastChild) by done. simpl.
  rewrite list_lookup_middle by done. simpl.
  unfold decreaseCardQuantity. simpl.
  rewrite list_lookup_middle by done. simpl.
  rewrite (delete_middle _ []), app_nil_r, length_app. simpl.
  rewrite (proj2 (Nat.ltb_lt _ _)) by lia. by destruct s.
Qed.

(** ** The hero slot and the hero's entry *)

(** On a page without a hero, selecting a hero and removing it again gives
    the page back; an entry the change-set had for that hero is deleted. *)
Theorem select_then_remove_hero cardReference cardName s :
  hero_name s = "" →
  hero_cardReference s = "" →
  remove_hero_disabled s = true →
  clicks [ click_card_display cardReference cardName "hero"; click_remove_hero ] s
  = Some (set_changes (delete cardReference (decklistChanges s)) s)
  ∧ (decklistChanges s !! cardReference = None →
     clicks [ click_card_display cardReference cardName "hero"; click_remove_hero ] s
     = Some s).
Proof.
  intros Hname Href Hdisabled.
  assert (Hclicks :
    clicks [ click_card_display cardReference cardName "hero"; click_remove_hero ] s
    = Some (set_changes (delete cardReference (decklistChanges s)) s)).
  { cbn [clicks click]. unfold cardDisplay.
    rewrite decide_True, decide_True by done. simpl.
    unfold removeHero, HasProperty. simpl.
    rewrite bool_decide_eq_true_2 by by rewrite lookup_insert_eq.
    simpl. rewrite delete_insert_eq.
    destruct s; simpl in *. by subst. }
  split; [done|]. intros Hnone. rewrite Hclicks, delete_id by done.
  by destruct s.
Qed.

(** Removing the hero and selecting a hero again, the same one or another:
    the slot holds the selected hero, whose entry is 1 whatever it was; a
    hero removed and selected again does not get its old entry back. *)
Theorem remove_then_select_hero cardReference cardName s :
  remove_hero_disabled s = false →
  ∃ s', clicks [ click_remove_hero; click_card_display cardReference cardName "hero" ] s
        = Some s'
        ∧ hero_name s' = cardName
        ∧ hero_cardReference s' = cardReference
        ∧ remove_hero_disabled s' = false
        ∧ edit_deck_column s' = edit_deck_column s
        ∧ decklistChanges s' !! cardReference = Some (Int 1)
        ∧ (hero_cardReference s = cardReference →
           decklistChanges s' = <[cardReference := Int 1]> (decklistChanges s)).
Proof.
  intros Henabled. eexists. split_and!.
  - cbn [clicks click]. rewrite Henabled. simpl. unfold cardDisplay.
    rewrite decide_True by done. rewrite removeHero_fields. simpl.
    reflexivity.
  - done.
  - done.
  - done.
  - done.
  - simpl. apply lookup_insert_eq.
  - intros <-. simpl. unfold removeHero. simpl. case_match; simpl.
    + by rewrite insert_delete_eq.
    + by rewrite insert_insert_eq.
Qed.

(** Whatever is clicked, an occupied hero slot has its remove button
    enabled, if that was so when the page was loaded: the hero in the slot
    can always be removed. *)
Theorem occupied_hero_is_removable es s s' :
  (hero_name s ≠ "" → remove_hero_disabled s = false) →
  clicks es s = Some s' →
  hero_name s' ≠ "" →
  click click_remove_hero s' = Some (removeHero s').
Proof.
  intros Hs Hclicks Hocc.
  assert (Hs' : hero_name s' ≠ "" → remove_hero_disabled s' = false).
  { apply (clicks_invariant
             (λ s, hero_name s ≠ "" → remove_hero_disabled s = false))
      with (es := es) (s := s); [| | |done|done]; clear.
    - intros f target s s' Hcall Hs.
      apply call_changes_only_row in Hcall as (_ & _ & -> & _). done.
    - intros cardReference cardName cardType s s' Hclick Hs.
      destruct (decide (cardType = "hero")) as [->|Hty].
      + unfold cardDisplay in Hclick. rewrite decide_True in Hclick by done.
        case_decide; by injection Hclick as <-.
      + apply cardDisplay_normal_frame in Hclick; [|done].
        injection Hclick as -> _ ->. done.
    - intros s _. by rewrite removeHero_fields. }
  simpl. by rewrite Hs'.
Qed.

(** * Further properties of the faction chart *)

Lemma deckStats_Permutation entries : deckStats entries ≡ₚ entries.
Proof. apply sort_Permutation. Qed.

Lemma data_StronglySorted entries :
  StronglySorted (λ x y : Z, y ≤ x) (data entries).
Proof.
  unfold data.
  apply (StronglySorted_fmap _ (λ a b : string * Z, b.2 ≤ a.2) (λ x y : Z, y ≤ x)).
  - by intros a b.
  - apply deckStats_StronglySorted.
Qed.

(** The [data] array depends on the counts only: two objects with the same
    entries in different key orders give the same [data]. *)
Theorem data_order_independent entries1 entries2 :
  entries1 ≡ₚ entries2 → data entries1 = data entries2.
Proof.
  intros Hperm.
  apply (StronglySorted_unique_strong (λ x y : Z, y ≤ x)).
  - intros x y _ _ Hxy Hyx. lia.
  - apply data_StronglySorted.
  - apply data_StronglySorted.
  - unfold data. by rewrite !deckStats_Permutation, Hperm.
Qed.

Lemma filter_sort_insert (c : Z) (x : string * Z) (l : list (string * Z)) :
  filter (λ e, e.2 = c) (sort_insert (λ a b, b.2 - a.2) x l)
  = filter (λ e, e.2 = c) (x :: l).
Proof.
  induction l as [|y l IH]; simpl; [done|].
  destruct (Z.leb_spec (y.2 - x.2) 0) as [Hle|Hgt]; [done|].
  rewrite filter_cons, IH, !filter_cons.
  destruct (decide (y.2 = c)) as [Hy|Hy], (decide (x.2 = c)) as [Hx|Hx];
    try done.
  lia.
Qed.

(** The sort is stable: the factions that have one and the same count come
    in [labels] in the order of the keys of the object. *)
Theorem deckStats_stable (c : Z) entries :
  filter (λ e, e.2 = c) (deckStats entries) = filter (λ e, e.2 = c) entries.
Proof.
  unfold deckStats, sort. induction entries as [|x l IH]; simpl; [done|].
  rewrite filter_sort_insert, !filter_cons. by rewrite IH.
Qed.





(** * Properties of the search filters *)

Lemma parseFilter_loop_spec doc (filter0 labels : list string) :
  parseFilter_loop doc filter0 labels
  = (λ elements, filter0 ++ (value <$> filter (λ e, checked e = true) elements))
      <$> mapM (λ label, doc !! ("filter" +:+ label)) labels.
Proof.
  revert filter0. induction labels as [|label labels IH]; intros filter0; csimpl.
  - by rewrite app_nil_r.
  - destruct (doc !! ("filter" +:+ label)) as [e|]; csimpl; [|done].
    rewrite IH. destruct (mapM _ labels) as [elements|]; csimpl; [|done].
    f_equal. rewrite filter_cons.
    destruct (checked e).
    + rewrite decide_True by done. csimpl. by rewrite <- app_assoc.
    + by rewrite decide_False by done.
Qed.

Lemma parseFilter_None labels doc :
  parseFilter labels doc = None
  ↔ ∃ label, label ∈ labels ∧ doc !! ("filter" +:+ label) = None.
Proof.
  unfold parseFilter.
  rewrite parseFilter_loop_spec, fmap_None, mapM_None, Exists_exists. done.
Qed.

(** [parseFilter] gives the values of the checkboxes that are checked, in
    the order of the labels, and raises exactly when a label has no
    checkbox in the document. *)
Theorem parseFilter_checked_values labels doc :
  parseFilter labels doc
  = (λ elements, value <$> filter (λ e, checked e = true) elements)
      <$> mapM (λ label, doc !! ("filter" +:+ label)) labels
  ∧ (parseFilter labels doc = None
     ↔ ∃ label, label ∈ labels ∧ doc !! ("filter" +:+ label) = None).
Proof.
  assert (Hspec : parseFilter labels doc
    = (λ elements, value <$> filter (λ e, checked e = true) elements)
        <$> mapM (λ label, doc !! ("filter" +:+ label)) labels).
  { unfold parseFilter. by rewrite parseFilter_loop_spec. }
  split; [done|]. rewrite Hspec, fmap_None, mapM_None, Exists_exists. done.
Qed.

Lemma parseFilter_is_Some labels doc :
  is_Some (parseFilter labels doc)
  ↔ Forall (λ label, is_Some (doc !! ("filter" +:+ label))) labels.
Proof.
  unfold parseFilter. rewrite parseFilter_loop_spec, fmap_is_Some, mapM_is_Some.
  done.
Qed.

Ltac sublist_names :=
  repeat first [apply sublist_nil_l | apply sublist_skip | apply sublist_cons].

Lemma searchCards_location p search' :
  URLSearchParams.get "deck" search' = URLSearchParams.get "deck" (location_search p) →
  searchCards
    (mkSearchPage (checkboxes p) (querySearch p) (filterOrdering_selectedIndex p)
       (filterOrdering_value p) (location_pathname p) search')
  = searchCards p.
Proof. unfold searchCards. simpl. by intros ->. Qed.

Lemma searchCards_values p path params :
  searchCards p = Some (path, params) →
  path = location_pathname p
  ∧ params.*1 `sublist_of` ["faction"; "rarity"; "type"; "query"; "order"; "deck"]
  ∧ (∃ factions rarities types,
       parseFilter ["Axiom"; "Bravos"; "Lyra"; "Muna"; "Ordis"; "Yzmir"] (checkboxes p)
       = Some factions
       ∧ parseFilter ["Common"; "Rare"; "Unique"] (checkboxes p) = Some rarities
       ∧ parseFilter ["Character"; "Hero"; "Permanent"; "Spell"] (checkboxes p)
         = Some types
       ∧ URLSearchParams.get "faction" params
         = match factions with
           | [] => None
           | _ => Some (String.concat "," factions)
           end
       ∧ URLSearchParams.get "rarity" params
         = match rarities with
           | [] => None
           | _ => Some (String.concat "," rarities)
           end
       ∧ URLSearchParams.get "type" params
         = match types with
           | [] => None
           | _ => Some (String.concat "," types)
           end)
  ∧ URLSearchParams.get "query" params
    = (if decide (querySearch p ≠ "") then Some (querySearch p) else None)
  ∧ URLSearchParams.get "order" params
    = (if 1 <? filterOrdering_selectedIndex p
       then Some (filterOrdering_value p) else None)
  ∧ URLSearchParams.get "deck" params
    = (deck ← URLSearchParams.get "deck" (location_search p);
       if decide (deck ≠ "") then Some deck else None).
Proof.
  unfold searchCards.
  destruct (parseFilter ["Axiom"; "Bravos"; "Lyra"; "Muna"; "Ordis"; "Yzmir"] (checkboxes p))
    as [factions|]; simpl; [|discriminate].
  destruct (parseFilter ["Common"; "Rare"; "Unique"] (checkboxes p))
    as [rarities|]; simpl; [|discriminate].
  destruct (parseFilter ["Character"; "Hero"; "Permanent"; "Spell"] (checkboxes p))
    as [types|]; simpl; [|discriminate].
  intros [= <- <-]. split; [done|].
  destruct factions as [|faction factions], rarities as [|rarity rarities],
    types as [|type types],
    (URLSearchParams.get "deck" (location_search p)) as [deck|]; simpl;
    repeat case_match;
    (split; [simpl; sublist_names|]);
    (split; [by eexists _, _, _|]); done.
Qed.

(** The URL of a search has the path of the page and at most one parameter
    of each name, in the order faction, rarity, type, query, order, deck.
    Each of the first three is there when a box of its group is checked
    and is then the checked values of the group, in the order of the
    labels, joined by commas; query is the query text, when that is not
    empty; order is the value of the dropdown, when its selected index
    is above 1; deck is the first deck of the current URL, when that is
    not empty.  Nothing else of the current URL is carried over: with
    another query string that has the same deck the search opens the same
    URL. *)
Theorem searchCards_parameters p path params :
  searchCards p = Some (path, params) →
  path = location_pathname p
  ∧ params.*1 `sublist_of` ["faction"; "rarity"; "type"; "query"; "order"; "deck"]
  ∧ (∃ factions rarities types,
       parseFilter ["Axiom"; "Bravos"; "Lyra"; "Muna"; "Ordis"; "Yzmir"] (checkboxes p)
       = Some factions
       ∧ parseFilter ["Common"; "Rare"; "Unique"] (checkboxes p) = Some rarities
       ∧ parseFilter ["Character"; "Hero"; "Permanent"; "Spell"] (checkboxes p)
         = Some types
       ∧ URLSearchParams.get "faction" params
         = match factions with
           | [] => None
           | _ => Some (String.concat "," factions)
           end
       ∧ URLSearchParams.get "rarity" params
         = match rarities with
           | [] => None
           | _ => Some (String.concat "," rarities)
           end
       ∧ URLSearchParams.get "type" params
         = match types with
           | [] => None
           | _ => Some (String.concat "," types)
           end)
  ∧ URLSearchParams.get "query" params
    = (if decide (querySearch p ≠ "") then Some (querySearch p) else None)
  ∧ URLSearchParams.get "order" params
    = (if 1 <? filterOrdering_selectedIndex p
       then Some (filterOrdering_value p) else None)
  ∧ URLSearchParams.get "deck" params
    = (deck ← URLSearchParams.get "deck" (location_search p);
       if decide (deck ≠ "") then Some deck else None)
  ∧ (∀ search',
       URLSearchParams.get "deck" search'
       = URLSearchParams.get "deck" (location_search p) →
       searchCards
         (mkSearchPage (checkboxes p) (querySearch p) (filterOrdering_selectedIndex p)
            (filterOrdering_value p) (location_pathname p) search')
       = Some (path, params)).
Proof.
  intros Hsearch.
  destruct (searchCards_values p path params Hsearch)
    as (Hpath & Hnames & Hgroups & Hquery & Horder & Hdeck).
  split_and!; [done..|].
  intros search' Hsame. by rewrite searchCards_location.
Qed.

(** A search raises, and opens no URL, whenever one of the thirteen filter
    checkboxes is missing from the document, whatever the rest of the form
    holds. *)
Theorem searchCards_raises_without_checkbox p label :
  label ∈ ["Axiom"; "Bravos"; "Lyra"; "Muna"; "Ordis"; "Yzmir";
           "Common"; "Rare"; "Unique";
           "Character"; "Hero"; "Permanent"; "Spell"] →
  checkboxes p !! ("filter" +:+ label) = None →
  searchCards p = None.
Proof.
  change ["Axiom"; "Bravos"; "Lyra"; "Muna"; "Ordis"; "Yzmir";
          "Common"; "Rare"; "Unique"; "Character"; "Hero"; "Permanent"; "Spell"]
    with (["Axiom"; "Bravos"; "Lyra"; "Muna"; "Ordis"; "Yzmir"]
          ++ ["Common"; "Rare"; "Unique"]
          ++ ["Character"; "Hero"; "Permanent"; "Spell"]).
  rewrite !elem_of_app. intros Hlabel Hnone.
  assert (Hraise : ∀ labels, label ∈ labels → parseFilter labels (checkboxes p) = None).
  { intros labels Hin. apply parseFilter_None. by exists label. }
  unfold searchCards.
  destruct (parseFilter ["Axiom"; "Bravos"; "Lyra"; "Muna"; "Ordis"; "Yzmir"] (checkboxes p))
    as [factions|] eqn:Hf; simpl; [|done].
  destruct (parseFilter ["Common"; "Rare"; "Unique"] (checkboxes p))
    as [rarities|] eqn:Hr; simpl; [|done].
  destruct (parseFilter ["Character"; "Hero"; "Permanent"; "Spell"] (checkboxes p))
    as [types|] eqn:Ht; simpl; [|done].
  destruct Hlabel as [Hin | [Hin | Hin]]; apply Hraise in Hin; congruence.
Qed.

Lemma get_deck_deckSelector selected p :
  URLSearchParams.get "deck" (deckSelector selected p).2 = Some selected.
Proof.
  unfold deckSelector, URLSearchParams.get, URLSearchParams.append,
    URLSearchParams.delete. simpl.
  rewrite list_find_app_r.
  - done.
  - apply list_find_None, Forall_forall. intros pair Hpair.
    by apply list_elem_of_filter in Hpair as [? _].
Qed.

Lemma filter_deck_without_deck (params : list (string * string)) :
  filter (λ pair, pair.1 = "deck") (filter (λ pair, pair.1 ≠ "deck") params) = [].
Proof.
  induction params as [|pair params IH]; [done|].
  rewrite filter_cons. case_decide; [|done].
  by rewrite filter_cons, decide_False.
Qed.

Lemma filter_without_deck_twice (params : list (string * string)) :
  filter (λ pair, pair.1 ≠ "deck") (filter (λ pair, pair.1 ≠ "deck") params)
  = filter (λ pair, pair.1 ≠ "deck") params.
Proof.
  induction params as [|pair params IH]; [done|].
  rewrite filter_cons. case_decide; [|done].
  by rewrite filter_cons, decide_True, IH.
Qed.

(** The deck selector opens the current URL with its deck parameter
    replaced: the parameters of other names are kept, in their order, and
    one deck parameter, the selected deck, comes last.  Selecting twice is
    selecting the second deck. *)
Theorem deckSelector_replaces_deck selected p :
  (deckSelector selected p).1 = location_pathname p
  ∧ (deckSelector selected p).2
    = filter (λ pair, pair.1 ≠ "deck") (location_search p) ++ [("deck", selected)]
  ∧ URLSearchParams.get "deck" (deckSelector selected p).2 = Some selected
  ∧ filter (λ pair, pair.1 = "deck") (deckSelector selected p).2
    = [("deck", selected)]
  ∧ (∀ p' again,
       location_pathname p' = (deckSelector selected p).1 →
       location_search p' = (deckSelector selected p).2 →
       deckSelector again p' = deckSelector again p).
Proof.
  split_and!; [done|done|apply get_deck_deckSelector| |].
  - unfold deckSelector, URLSearchParams.append, URLSearchParams.delete. simpl.
    by rewrite filter_app, filter_deck_without_deck.
  - intros p' again Hpath Hsearch.
    unfold deckSelector, URLSearchParams.append, URLSearchParams.delete in *.
    simpl in *. rewrite Hpath, Hsearch. f_equal. f_equal.
    rewrite filter_app.
    replace (filter _ [("deck", selected)]) with (@nil (string * string)) by done.
    by rewrite app_nil_r, filter_without_deck_twice.
Qed.

(** After the deck selector has opened its URL, a search on the page at
    that URL is a search in the selected deck, whatever the filters are. *)
Theorem search_keeps_selected_deck selected p p' path params :
  selected ≠ "" →
  location_search p' = (deckSelector selected p).2 →
  searchCards p' = Some (path, params) →
  URLSearchParams.get "deck" params = Some selected
  ∧ last params = Some ("deck", selected).
Proof.
  intros Hselected Hsearch. unfold searchCards.
  rewrite Hsearch, get_deck_deckSelector.
  destruct (parseFilter ["Axiom"; "Bravos"; "Lyra"; "Muna"; "Ordis"; "Yzmir"] (checkboxes p'))
    as [factions|]; simpl; [|discriminate].
  destruct (parseFilter ["Common"; "Rare"; "Unique"] (checkboxes p'))
    as [rarities|]; simpl; [|discriminate].
  destruct (parseFilter ["Character"; "Hero"; "Permanent"; "Spell"] (checkboxes p'))
    as [types|]; simpl; [|discriminate].
  rewrite decide_True by done. intros [= <- <-].
  split; repeat case_match; done.
Qed.

Lemma parseFilter_nil labels doc values :
  parseFilter labels doc = Some values →
  values = []
  ↔ Forall (λ label, ∀ e, doc !! ("filter" +:+ label) = Some e → checked e = false)
           labels.
Proof.
  unfold parseFilter. rewrite parseFilter_loop_spec.
  destruct (mapM _ labels) as [elements|] eqn:Hm; simpl; [|discriminate].
  intros [= <-]. apply mapM_Some in Hm.
  induction Hm as [|label e labels elements He Hm IH]; [done|].
  rewrite filter_cons, Forall_cons. destruct (checked e) eqn:Hc.
  - rewrite decide_True by done. split; [done|].
    intros [Hlabel _]. apply Hlabel in He. congruence.
  - rewrite decide_False by done. rewrite IH. split; [|by intros [_ ?]].
    intros Hrest. split; [|done]. intros e' He'. congruence.
Qed.

Lemma length_pos_nil {A} (l : list A) : (0 <? length l)%nat = false ↔ l = [].
Proof. destruct l; simpl; split; (done || lia). Qed.

(** A search sends no parameter at all, and opens the bare path with a
    question mark, exactly when no filter checkbox is checked, the query is
    empty, the ordering is one of the first two options and the current
    URL has no deck, or an empty one. *)
Theorem searchCards_no_parameters p path params :
  searchCards p = Some (path, params) →
  params = []
  ↔ Forall (λ label, ∀ e, checkboxes p !! ("filter" +:+ label) = Some e →
                          checked e = false)
           ["Axiom"; "Bravos"; "Lyra"; "Muna"; "Ordis"; "Yzmir";
            "Common"; "Rare"; "Unique";
            "Character"; "Hero"; "Permanent"; "Spell"]
    ∧ querySearch p = ""
    ∧ filterOrdering_selectedIndex p ≤ 1
    ∧ (URLSearchParams.get "deck" (location_search p) = None
       ∨ URLSearchParams.get "deck" (location_search p) = Some "").
Proof.
  change ["Axiom"; "Bravos"; "Lyra"; "Muna"; "Ordis"; "Yzmir";
          "Common"; "Rare"; "Unique"; "Character"; "Hero"; "Permanent"; "Spell"]
    with (["Axiom"; "Bravos"; "Lyra"; "Muna"; "Ordis"; "Yzmir"]
          ++ ["Common"; "Rare"; "Unique"]
          ++ ["Character"; "Hero"; "Permanent"; "Spell"]).
  rewrite !Forall_app. unfold searchCards.
  destruct (parseFilter ["Axiom"; "Bravos"; "Lyra"; "Muna"; "Ordis"; "Yzmir"] (checkboxes p))
    as [factions|] eqn:Hf; simpl; [|discriminate].
  destruct (parseFilter ["Common"; "Rare"; "Unique"] (checkboxes p))
    as [rarities|] eqn:Hr; simpl; [|discriminate].
  destruct (parseFilter ["Character"; "Hero"; "Permanent"; "Spell"] (checkboxes p))
    as [types|] eqn:Ht; simpl; [|discriminate].
  rewrite <- (parseFilter_nil _ _ _ Hf), <- (parseFilter_nil _ _ _ Hr),
    <- (parseFilter_nil _ _ _ Ht), <- !length_pos_nil.
  intros [= <- <-].
  destruct (0 <? length factions)%nat, (0 <? length rarities)%nat,
    (0 <? length types)%nat, (decide (querySearch p ≠ "")) as [Hq|Hq],
    (Z.ltb_spec 1 (filterOrdering_selectedIndex p)),
    (URLSearchParams.get "deck" (location_search p)) as [deck|];
    try destruct (decide (deck ≠ "")) as [Hd|Hd];
    try apply dec_stable in Hq; try apply dec_stable in Hd;
    simpl; (split; [try done; intros _|intros (? & ? & ? & ?)]);
    repeat split; subst; try done; try lia; eauto;
    destruct_or!; congruence.
Qed.


(** * The further properties on the example pages *)

Lemma clicks_keep_ids_unique_witness :
  NoDup (row_id <$> edit_deck_column (default example_page example_raised)).
Proof.
  apply (clicks_keep_ids_unique
           [ click_card_display "ALT_CORE_B_BR_10_C" "Kojo" "character";
             click_add_card_btn 3; click_add_card_btn 3 ] example_page).
  - by compute_done.
  - vm_compute. reflexivity.
Defined.

Lemma buttons_run_their_handler_witness :
  click (click_add_card_btn 3) (default example_page example_raised)
  = increaseCardQuantity 3 (default example_page example_raised)
  ∧ click (click_remove_card_btn 3) (default example_page example_raised)
    = decreaseCardQuantity 3 (default example_page example_raised).
Proof.
  eapply (buttons_run_their_handler example_column "" "" true
            [ click_card_display "ALT_CORE_B_BR_10_C" "Kojo" "character";
              click_add_card_btn 3; click_add_card_btn 3 ]).
  - by repeat constructor.
  - vm_compute. reflexivity.
  - vm_compute. reflexivity.
  - reflexivity.
Defined.

Lemma select_clicks_agree_witness :
  ∃ s', clicks [ click_card_display "ALT_CORE_B_BR_10_C" "Kojo" "character";
                 click_card_display "ALT_CORE_B_AX_08_C" "Foundry Mechanic" "character";
                 click_card_display "ALT_CORE_B_BR_10_C" "Kojo" "character" ]
          example_page = Some s'
        ∧ agree s'.
Proof.
  eexists. split; [vm_compute; reflexivity|].
  eapply (select_clicks_agree
            [ click_card_display "ALT_CORE_B_BR_10_C" "Kojo" "character";
              click_card_display "ALT_CORE_B_AX_08_C" "Foundry Mechanic" "character";
              click_card_display "ALT_CORE_B_BR_10_C" "Kojo" "character" ]
            example_page).
  - repeat constructor; discriminate.
  - apply agree_load.
  - vm_compute. reflexivity.
Defined.

Lemma increase_decrease_round_trip_witness :
  increaseCardQuantity 0 example_page ≫= decreaseCardQuantity 0 = Some example_page
  ∧ (2 ≤ 3 →
     decreaseCardQuantity 0 example_page ≫= increaseCardQuantity 0 = Some example_page).
Proof.
  apply (increase_decrease_round_trip 0 (wire example_mechanic) 3 example_page).
  - reflexivity.
  - reflexivity.
  - lia.
  - by compute_done.
Defined.

Lemma select_then_decrease_witness :
  clicks [ click_card_display "ALT_CORE_B_BR_10_C" "Kojo" "character";
           click_remove_card_btn 3 ] example_page
  = Some (set_changes (<["ALT_CORE_B_BR_10_C" := Int 1]> (decklistChanges example_page))
            example_page).
Proof.
  apply (select_then_decrease "ALT_CORE_B_BR_10_C" "Kojo" "character" example_page).
  - discriminate.
  - reflexivity.
  - by eexists.
Defined.

Lemma select_then_remove_hero_witness :
  clicks [ click_card_display "ALT_CORE_B_AX_01_C" "Sierra & Oddball" "hero";
           click_remove_hero ] example_page
  = Some example_page.
Proof.
  apply (select_then_remove_hero "ALT_CORE_B_AX_01_C" "Sierra & Oddball" example_page);
    reflexivity.
Defined.

Lemma remove_then_select_hero_witness :
  ∃ s', clicks [ click_remove_hero;
                 click_card_display "ALT_CORE_B_AX_01_C" "Sierra & Oddball" "hero" ]
          example_hero_page = Some s'
        ∧ hero_name s' = "Sierra & Oddball"
        ∧ decklistChanges s' !! "ALT_CORE_B_AX_01_C" = Some (Int 1).
Proof.
  destruct (remove_then_select_hero "ALT_CORE_B_AX_01_C" "Sierra & Oddball"
              example_hero_page eq_refl)
    as (s' & Hclicks & Hname & _ & _ & _ & Hentry & _).
  by exists s'.
Defined.

Lemma occupied_hero_is_removable_witness :
  click click_remove_hero
    (set_changes (<["ALT_CORE_B_AX_01_C" := Int 1]> ∅)
       (set_hero "Sierra & Oddball" "ALT_CORE_B_AX_01_C" false example_page))
  = Some (removeHero
            (set_changes (<["ALT_CORE_B_AX_01_C" := Int 1]> ∅)
               (set_hero "Sierra & Oddball" "ALT_CORE_B_AX_01_C" false example_page))).
Proof.
  apply (occupied_hero_is_removable
           [ click_card_display "ALT_CORE_B_AX_01_C" "Sierra & Oddball" "hero" ]
           example_page).
  - intros Hname. by destruct Hname.
  - reflexivity.
  - discriminate.
Defined.

Lemma clicks_never_show_zero_witness :
  ∃ q, Number (card_quantity (wire example_parvati)) = Int q ∧ 0 < q.
Proof.
  apply (clicks_never_show_zero
           [ click_card_display "ALT_CORE_B_BR_10_C" "Kojo" "character";
             click_add_card_btn 3; click_add_card_btn 3 ]
           example_page (default example_page example_raised)).
  - split; [by repeat constructor|apply map_Forall_empty].
  - vm_compute. reflexivity.
  - apply (list_elem_of_lookup_2 _ 1%nat). vm_compute. reflexivity.
  - reflexivity.
Defined.

Lemma data_order_independent_witness :
  data (reverse example_factions) = data example_factions.
Proof.
  apply (data_order_independent (reverse example_factions) example_factions).
  apply reverse_Permutation.
Defined.


Lemma searchCards_parameters_witness :
  searchCards example_search
  = Some ("/cards/", [ ("faction", "AX"); ("rarity", "R"); ("query", "robot");
                       ("order", "-name"); ("deck", "42") ])
  ∧ URLSearchParams.get "deck"
      [ ("faction", "AX"); ("rarity", "R"); ("query", "robot");
        ("order", "-name"); ("deck", "42") ]
    = Some "42"
  ∧ searchCards
      (mkSearchPage (checkboxes example_search) (querySearch example_search)
         (filterOrdering_selectedIndex example_search)
         (filterOrdering_value example_search)
         (location_pathname example_search)
         [("deck", "42"); ("page", "3")])
    = Some ("/cards/", [ ("faction", "AX"); ("rarity", "R"); ("query", "robot");
                         ("order", "-name"); ("deck", "42") ]).
Proof.
  assert (Hsearch : searchCards example_search
    = Some ("/cards/", [ ("faction", "AX"); ("rarity", "R"); ("query", "robot");
                         ("order", "-name"); ("deck", "42") ]))
    by (vm_compute; reflexivity).
  destruct (searchCards_parameters example_search _ _ Hsearch)
    as (_ & _ & _ & _ & _ & Hdeck & Hlocation).
  split_and!; [exact Hsearch|exact Hdeck|].
  apply (Hlocation [("deck", "42"); ("page", "3")]). reflexivity.
Defined.

Lemma searchCards_raises_without_checkbox_witness :
  searchCards
    {| checkboxes := delete "filterHero" example_checkboxes;
       querySearch := "robot";
       filterOrdering_selectedIndex := 2;
       filterOrdering_value := "-name";
       location_pathname := "/cards/";
       location_search := [] |}
  = None.
Proof.
  apply (searchCards_raises_without_checkbox _ "Hero").
  - by compute_done.
  - vm_compute. reflexivity.
Defined.

Lemma search_keeps_selected_deck_witness :
  ∃ params,
    searchCards
      {| checkboxes := example_checkboxes;
         querySearch := "";
         filterOrdering_selectedIndex := 0;
         filterOrdering_value := "";
         location_pathname := "/cards/";
         location_search := (deckSelector "7" example_search).2 |}
    = Some ("/cards/", params)
    ∧ URLSearchParams.get "deck" params = Some "7"
    ∧ last params = Some ("deck", "7").
Proof.
  eexists. split; [vm_compute; reflexivity|].
  eapply (search_keeps_selected_deck "7" example_search
            {| checkboxes := example_checkboxes;
               querySearch := "";
               filterOrdering_selectedIndex := 0;
               filterOrdering_value := "";
               location_pathname := "/cards/";
               location_search := (deckSelector "7" example_search).2 |}).
  - discriminate.
  - reflexivity.
  - vm_compute. reflexivity.
Defined.

Lemma searchCards_no_parameters_witness :
  searchCards example_blank_search = Some ("/cards/", [])
  ∧ querySearch example_blank_search = "".
Proof.
  assert (Hsearch : searchCards example_blank_search = Some ("/cards/", []))
    by (vm_compute; reflexivity).
  split; [exact Hsearch|].
  destruct (proj1 (searchCards_no_parameters example_blank_search _ _ Hsearch) eq_refl)
    as (_ & Hquery & _).
  exact Hquery.
Defined.
